(** * The Event Data Recorder of road-recorder, and its near-miss test

    A shallow embedding of [edr/edr_buffer.py], [edr/edr_sensor.py],
    [edr/edr.py] and [carlasim/utilities/separating_axis_theorem.py], of
    the recorder's part of [carlasim/core/world.py], and of the functions
    on names of [carlasim/core/utilities.py] and [edr/near_miss_logger.py].

    - Python objects that are shared and mutated (the sensors an [EDR]
      holds) live in a store indexed by references; an object owned by
      exactly one other (a sensor's buffer, a buffer's two deques) is a
      field of its owner.
    - A method that mutates [self] and may raise is a computation in a
      state-and-exception monad: the state it leaves behind when it raises
      is the state Python leaves behind.
    - The code is duck-typed over its numbers.  The class [PyNum] collects
      the operations the code applies to timestamps and coordinates; it is
      instantiated with exact rationals ([Q], what [fractions.Fraction]
      or ideal real arithmetic gives) and with IEEE binary64 ([float], what
      Python's [float] gives). *)

From Stdlib Require Import ZArith QArith Qabs Qround String Ascii List Bool Lia Lqa.
From Stdlib Require Import Floats.PrimFloat Floats.SpecFloat Floats.FloatOps.
From stdpp Require Import base option list gmap.

Set Warnings "-inexact-float".
Open Scope string_scope.
Open Scope list_scope.

(** String concatenation, Python's [+] on [str]. *)
Infix "+++" := String.append (at level 60, right associativity).

(** ** Exceptions and the state-and-exception monad *)

Inductive exn : Type :=
| AssertionError
| TypeError
| ValueError
| OSError
| Stuck.

Inductive Res (A : Type) : Type :=
| Ok (a : A)
| Raise (e : exn).
Arguments Ok {A} a.
Arguments Raise {A} e.

#[global] Instance Res_ret : MRet Res := fun A a => Ok a.
#[global] Instance Res_bind : MBind Res := fun A B f m =>
  match m with
  | Ok a => f a
  | Raise e => Raise e
  end.

(** A computation over a mutable state [S]: the state is returned on both
    outcomes, since a raise does not undo the assignments before it. *)
Definition M (S A : Type) : Type := S -> Res A * S.

#[global] Instance M_ret {S} : MRet (M S) := fun A a s => (Ok a, s).
#[global] Instance M_bind {S} : MBind (M S) := fun A B f m s =>
  match m s with
  | (Ok a, s') => f a s'
  | (Raise e, s') => (Raise e, s')
  end.

Definition raise {S A} (e : exn) : M S A := fun s => (Raise e, s).
Definition gets {S A} (f : S -> A) : M S A := fun s => (Ok (f s), s).
Definition modify {S} (f : S -> S) : M S unit := fun s => (Ok tt, f s).
Definition lift_res {S A} (r : Res A) : M S A := fun s => (r, s).

(** [for x in l: body(x)] *)
Fixpoint for_each {S A} (l : list A) (body : A -> M S unit) : M S unit :=
  match l with
  | [] => mret tt
  | x :: l' => _ ← body x; for_each l' body
  end.

(** Runs [m] on the component of the state selected by a getter and a
    setter. *)
Definition zoom {S1 S2 A} (get : S2 -> S1) (set : S1 -> S2 -> S2)
    (m : M S1 A) : M S2 A :=
  fun s => let (r, s1) := m (get s) in (r, set s1 s).

(** ** Numbers *)

Class PyNum (T : Type) : Type := {
  padd : T -> T -> T;
  psub : T -> T -> T;
  pmul : T -> T -> T;
  pdiv : T -> T -> T;
  pneg : T -> T;
  plt : T -> T -> bool;
  ple : T -> T -> bool;
  pzero : T;
  pone : T;
  (** [int(x)]: truncation toward zero; [None] where Python raises (NaN,
      infinities). *)
  pint : T -> option Z;
  (** The exact value of a finite number, for decimal formatting. *)
  pvalue : T -> Q
}.

Definition pgt {T} `{PyNum T} (a b : T) : bool := plt b a.
Definition pge {T} `{PyNum T} (a b : T) : bool := ple b a.

(** Exact rationals. *)
Definition Qlt_bool (a b : Q) : bool := negb (Qle_bool b a).
Definition Qint (q : Q) : Z := Z.quot (Qnum q) (Zpos (Qden q)).

#[global] Instance QNum : PyNum Q := {|
  padd := Qplus;
  psub := Qminus;
  pmul := Qmult;
  pdiv := Qdiv;
  pneg := Qopp;
  plt := Qlt_bool;
  ple := Qle_bool;
  pzero := 0%Q;
  pone := 1%Q;
  pint := fun q => Some (Qint q);
  pvalue := fun q => q
|}.

(** IEEE binary64, as the kernel's floats compute it. *)
Definition SF_int (f : spec_float) : option Z :=
  match f with
  | S754_zero _ => Some 0%Z
  | S754_finite s m e =>
      let a := if (0 <=? e)%Z then Z.shiftl (Zpos m) e
               else Z.shiftr (Zpos m) (- e) in
      Some (if s then - a else a)%Z
  | S754_infinity _ | S754_nan => None
  end.

Definition SF_value (f : spec_float) : Q :=
  match f with
  | S754_finite s m e =>
      let n := if s then Zneg m else Zpos m in
      if (0 <=? e)%Z then inject_Z (Z.shiftl n e)
      else Qmake n (Pos.shiftl 1 (Z.to_N (- e)))
  | _ => 0%Q
  end.

#[global] Instance F64 : PyNum float := {|
  padd := PrimFloat.add;
  psub := PrimFloat.sub;
  pmul := PrimFloat.mul;
  pdiv := PrimFloat.div;
  pneg := PrimFloat.opp;
  plt := PrimFloat.ltb;
  ple := PrimFloat.leb;
  pzero := 0%float;
  pone := 1%float;
  pint := fun f => SF_int (Prim2SF f);
  pvalue := fun f => SF_value (Prim2SF f)
|}.

(** ** [collections.deque] *)

Module deque.
Record t (A : Type) : Type := mk { items : list A; maxlen : option nat }.
Arguments mk {A} items maxlen.
Arguments items {A} _.
Arguments maxlen {A} _.

(** [deque(maxlen=n)]: a negative bound raises [ValueError]. *)
Definition create {A} (n : option Z) : Res (t A) :=
  match n with
  | None => Ok (mk [] None)
  | Some n => if (n <? 0)%Z then Raise ValueError
              else Ok (mk [] (Some (Z.to_nat n)))
  end.

(** [d.append(x)]: the item is added at the right end; a bounded deque
    that is now over its bound drops one item from the left end. *)
Definition append {A} (x : A) (d : t A) : t A :=
  let l := items d ++ [x] in
  match maxlen d with
  | Some n => if (n <? length l)%nat then mk (tail l) (Some n) else mk l (Some n)
  | None => mk l None
  end.

Definition clear {A} (d : t A) : t A := mk [] (maxlen d).
End deque.

(** ** [os.path.join] (POSIX) *)

Definition starts_with_sep (s : string) : bool :=
  match s with
  | String c _ => Ascii.eqb c "/"
  | EmptyString => false
  end.

Fixpoint ends_with_sep (s : string) : bool :=
  match s with
  | EmptyString => false
  | String c EmptyString => Ascii.eqb c "/"
  | String _ r => ends_with_sep r
  end.

(** One step of [posixpath.join]: an absolute component replaces what was
    joined so far; otherwise it is appended after exactly one separator. *)
Definition join2 (path b : string) : string :=
  if starts_with_sep b then b
  else if String.eqb path "" || ends_with_sep path then path +++ b
  else path +++ "/" +++ b.

Definition os_path_join (a : string) (p : list string) : string :=
  fold_left join2 p a.

(** ** [str.format] with a fixed-point presentation type

    [format_f plus zero width prec x] is ["{:[+][0]<width>.<prec>f}".format(x)]:
    [x] rounded half-even to [prec] decimals; the sign of a negative number,
    and with [plus] also of the others; with [zero] the padding is made of
    zeros put after the sign, otherwise of spaces put before it. *)

Definition digit (n : Z) : ascii := ascii_of_nat (48 + Z.to_nat n).

Fixpoint int_digits (fuel : nat) (n : Z) (acc : string) : string :=
  match fuel with
  | O => acc
  | S f =>
      let acc' := String (digit (n mod 10)) acc in
      if (n / 10 =? 0)%Z then acc' else int_digits f (n / 10) acc'
  end.

Definition str_int (n : Z) : string :=
  int_digits (S (Z.to_nat (Z.log2 n))) n "".

Fixpoint frac_digits (k : nat) (n : Z) (acc : string) : string :=
  match k with
  | O => acc
  | S k' => frac_digits k' (n / 10) (String (digit (n mod 10)) acc)
  end.

Definition round_half_even (q : Q) : Z :=
  let n := Qnum q in
  let d := Zpos (Qden q) in
  let fl := (n / d)%Z in
  let r2 := (2 * (n mod d))%Z in
  if (r2 <? d)%Z then fl
  else if (d <? r2)%Z then (fl + 1)%Z
  else if Z.even fl then fl else (fl + 1)%Z.

Definition fixed (prec : nat) (x : Q) : string :=
  let p := (10 ^ Z.of_nat prec)%Z in
  let scaled := round_half_even (Qabs x * inject_Z p) in
  str_int (scaled / p) +++
  match prec with
  | O => ""
  | S _ => "." +++ frac_digits prec (scaled mod p) ""
  end.

Fixpoint string_repeat (c : ascii) (n : nat) : string :=
  match n with
  | O => ""
  | S n' => String c (string_repeat c n')
  end.

Definition format_f (plus zero : bool) (width prec : nat) (x : Q) : string :=
  let sgn := if Qlt_bool x 0 then "-" else if plus then "+" else "" in
  let body := fixed prec x in
  let pad := (width - (String.length sgn + String.length body))%nat in
  if zero then sgn +++ string_repeat "0" pad +++ body
  else string_repeat " " pad +++ sgn +++ body.

(** ** The world outside: console and file system

    Every effect the recorder has is appended to [log].  An operation on a
    path of [denied] fails with [OSError] (a full disk, a directory that
    may not be written). *)

Inductive Effect (Data : Type) : Type :=
| Print (text : string)
| MakeDirs (path : string)
| WriteFile (path content : string)
| SaveToDisk (path : string) (data : Data).
Arguments Print {Data} text.
Arguments MakeDirs {Data} path.
Arguments WriteFile {Data} path content.
Arguments SaveToDisk {Data} path data.

Record World (Data : Type) : Type := mkWorld {
  log : list (Effect Data);
  denied : list string
}.
Arguments mkWorld {Data} log denied.
Arguments log {Data} _.
Arguments denied {Data} _.

Definition emit {Data} (e : Effect Data) (w : World Data) : World Data :=
  mkWorld (log w ++ [e]) (denied w).

Definition is_denied {Data} (path : string) (w : World Data) : bool :=
  existsb (String.eqb path) (denied w).

Definition guarded {Data} (path : string) (e : Effect Data) : M (World Data) unit :=
  fun w => if is_denied path w then (Raise OSError, w) else (Ok tt, emit e w).

(** [print(a, b, ...)]: the arguments separated by single spaces. *)
Definition print {Data} (args : list string) : M (World Data) unit :=
  modify (emit (Print (String.concat " " args))).

(** [os.makedirs(path, exist_ok=True)] *)
Definition makedirs {Data} (path : string) : M (World Data) unit :=
  guarded path (MakeDirs path).

(** [with open(path, "w") as f: f.write(content)] *)
Definition write_file {Data} (path content : string) : M (World Data) unit :=
  guarded path (WriteFile path content).

(** [data.save_to_disk(path)], the one capability a payload must have. *)
Definition save_to_disk {Data} (data : Data) (path : string) : M (World Data) unit :=
  guarded path (SaveToDisk path data).

(** A method of an object, run with the world at hand. *)
Definition on_self {S W A} (m : M S A) : M (S * W) A :=
  zoom fst (fun s p => (s, snd p)) m.
Definition io {S W A} (m : M W A) : M (S * W) A :=
  zoom snd (fun w p => (fst p, w)) m.

(** ** [edr/edr_buffer.py]: class [EDRBuffer] *)

Module EDRBuffer.
Section WithNum.
Context {T : Type} `{PyNum T} {Data : Type}.

Record t : Type := mk {
  sensor_type : string;
  sensor_id : string;
  preevent_time : T;
  postevent_time : T;
  max_sample_rate : T;
  sample_interval : T;
  preevent_buffer : deque.t (T * Data);
  postevent_buffer : deque.t (T * Data);
  event_timestamp : option T;
  start_timestamp : option T;
  end_timestamp : option T;
  next_timestamp : option T;
  saving : bool
}.

(** Assignments to attributes of [self]. *)
Definition set_preevent_buffer (d : deque.t (T * Data)) (self : t) : t :=
  mk (sensor_type self) (sensor_id self) (preevent_time self)
     (postevent_time self) (max_sample_rate self) (sample_interval self)
     d (postevent_buffer self)
     (event_timestamp self) (start_timestamp self) (end_timestamp self)
     (next_timestamp self) (saving self).

Definition set_postevent_buffer (d : deque.t (T * Data)) (self : t) : t :=
  mk (sensor_type self) (sensor_id self) (preevent_time self)
     (postevent_time self) (max_sample_rate self) (sample_interval self)
     (preevent_buffer self) d
     (event_timestamp self) (start_timestamp self) (end_timestamp self)
     (next_timestamp self) (saving self).

Definition set_event (ev start stop : option T) (self : t) : t :=
  mk (sensor_type self) (sensor_id self) (preevent_time self)
     (postevent_time self) (max_sample_rate self) (sample_interval self)
     (preevent_buffer self) (postevent_buffer self)
     ev start stop
     (next_timestamp self) (saving self).

Definition set_next_timestamp (n : option T) (self : t) : t :=
  mk (sensor_type self) (sensor_id self) (preevent_time self)
     (postevent_time self) (max_sample_rate self) (sample_interval self)
     (preevent_buffer self) (postevent_buffer self)
     (event_timestamp self) (start_timestamp self) (end_timestamp self)
     n (saving self).

Definition set_saving (b : bool) (self : t) : t :=
  mk (sensor_type self) (sensor_id self) (preevent_time self)
     (postevent_time self) (max_sample_rate self) (sample_interval self)
     (preevent_buffer self) (postevent_buffer self)
     (event_timestamp self) (start_timestamp self) (end_timestamp self)
     (next_timestamp self) b.

(** [EDRBuffer.__init__]: [int()] raises on a product that is not finite,
    and [deque] on a negative bound. *)
Definition __init__ (sensor_type sensor_id : string)
    (preevent_time postevent_time max_sample_rate : T) : Res t :=
  match pint (pmul preevent_time max_sample_rate) with
  | None => Raise ValueError
  | Some preevent_samples =>
      let sample_interval :=
        if ple max_sample_rate pzero then pone else pdiv pone max_sample_rate in
      pre ← deque.create (Some preevent_samples);
      post ← deque.create None;
      mret (mk sensor_type sensor_id preevent_time postevent_time
               max_sample_rate sample_interval pre post
               None None None None false)
  end.

(** [EDRBuffer.clear] *)
Definition clear (self : t) : t :=
  let self := set_preevent_buffer (deque.clear (preevent_buffer self)) self in
  let self := set_postevent_buffer (deque.clear (postevent_buffer self)) self in
  let self := set_event None None None self in
  set_next_timestamp None self.

(** The three guards of [on_data], in the order they are tested. *)
Definition event_storage_finished (timestamp : T) (self : t) : bool :=
  match end_timestamp self with
  | Some e => pgt timestamp e
  | None => false
  end.

Definition too_soon (timestamp : T) (self : t) : bool :=
  match next_timestamp self with
  | Some n => plt timestamp n
  | None => false
  end.

(** [EDRBuffer.on_data] *)
Definition on_data (timestamp : T) (data : Data) (self : t) : t :=
  if saving self then self
  else if event_storage_finished timestamp self then self
  else if too_soon timestamp self then self
  else
    let self :=
      set_next_timestamp (Some (padd timestamp (sample_interval self))) self in
    let item := (timestamp, data) in
    match event_timestamp self with
    | None => set_preevent_buffer (deque.append item (preevent_buffer self)) self
    | Some _ =>
        set_postevent_buffer (deque.append item (postevent_buffer self)) self
    end.

(** [EDRBuffer.on_event_trigger]: the [assert] comes before the
    assignments. *)
Definition on_event_trigger (timestamp : T) : M t unit :=
  fun self =>
    match event_timestamp self with
    | Some _ => (Raise AssertionError, self)
    | None =>
        (Ok tt,
         set_event (Some timestamp)
           (Some (psub timestamp (preevent_time self)))
           (Some (padd timestamp (postevent_time self))) self)
    end.

(** The name [_save_data_item] gives the file of an item. *)
Definition item_filename (sensor_id : string) (timestamp offset : T)
    (ext : string) : string :=
  let filename := if negb (String.eqb sensor_id "") then sensor_id +++ "_" else "" in
  filename +++ format_f false false 19 8 (pvalue timestamp) +++ "_"
           +++ format_f true true 10 8 (pvalue offset) +++ ext.

(** [EDRBuffer._save_data_item]: subtracting [None] raises [TypeError]. *)
Definition _save_data_item (item : T * Data) (path ext : string)
    : M (t * World Data) unit :=
  ev ← gets (fun s => event_timestamp (fst s));
  match ev with
  | None => raise TypeError
  | Some ev =>
      let offset := psub (fst item) ev in
      sid ← gets (fun s => sensor_id (fst s));
      let filename := item_filename sid (fst item) offset ext in
      let frame_path := os_path_join path [filename] in
      io (save_to_disk (snd item) frame_path)
  end.

(** [EDRBuffer.save_data]: comparing with [None] raises [TypeError]. *)
Definition save_data (base_path ext : string) : M (t * World Data) unit :=
  _ ← on_self (modify (set_saving true));
  stype ← gets (fun s => sensor_type (fst s));
  sid ← gets (fun s => sensor_id (fst s));
  let path := os_path_join base_path [stype; sid] in
  _ ← io (makedirs path);
  pre ← gets (fun s => deque.items (preevent_buffer (fst s)));
  _ ← for_each pre (fun item =>
         start ← gets (fun s => start_timestamp (fst s));
         match start with
         | None => raise TypeError
         | Some start =>
             if pge (fst item) start then _save_data_item item path ext
             else mret tt
         end);
  post ← gets (fun s => deque.items (postevent_buffer (fst s)));
  _ ← for_each post (fun item =>
         stop ← gets (fun s => end_timestamp (fst s));
         match stop with
         | None => raise TypeError
         | Some stop =>
             if ple (fst item) stop then _save_data_item item path ext
             else mret tt
         end);
  on_self (modify (set_saving false)).

End WithNum.
Arguments t T Data : clear implicits.
End EDRBuffer.

(** ** [edr/edr_sensor.py]: class [EDRSensor]

    The base class.  [class_name] is [self.__class__.__name__]; the fields
    [_parent] and [sensor] (the simulator's actors) play no part in
    recording. *)

Module EDRSensor.
Section WithNum.
Context {T : Type} `{PyNum T} {Data : Type}.

Record t : Type := mk {
  class_name : string;
  sensor_type : string;
  sensor_id : string;
  edr_buffer : EDRBuffer.t T Data;
  ext : string
}.

Definition set_edr_buffer (b : EDRBuffer.t T Data) (self : t) : t :=
  mk (class_name self) (sensor_type self) (sensor_id self) b (ext self).

(** A method of [self.edr_buffer]. *)
Definition on_buffer {A} (m : M (EDRBuffer.t T Data * World Data) A)
    : M (t * World Data) A :=
  zoom (fun s => (edr_buffer (fst s), snd s))
       (fun b s => (set_edr_buffer (fst b) (fst s), snd b)) m.

(** [EDRSensor.__init__] *)
Definition __init__ (class_name : string)
    (preevent_time postevent_time max_sample_rate : T)
    (sensor_type sensor_id : string) : M (World Data) t :=
  buffer ← lift_res (EDRBuffer.__init__ sensor_type sensor_id preevent_time
                       postevent_time max_sample_rate);
  _ ← print ["created:"; class_name;
             if negb (String.eqb sensor_id "") then "[" +++ sensor_id +++ "]"
             else ""];
  mret (mk class_name sensor_type sensor_id buffer "").

(** [EDRSensor.clear_event] *)
Definition clear_event (self : t) : t :=
  set_edr_buffer (EDRBuffer.clear (edr_buffer self)) self.

(** [EDRSensor.on_event_trigger] *)
Definition on_event_trigger (timestamp : T) : M (t * World Data) unit :=
  on_buffer (on_self (EDRBuffer.on_event_trigger timestamp)).

(** [EDRSensor.save_data] *)
Definition save_data (path : string) : M (t * World Data) unit :=
  cls ← gets (fun s => class_name (fst s));
  sid ← gets (fun s => sensor_id (fst s));
  _ ← io (print ["Saving"; cls; "data";
                 if negb (String.eqb sid "") then "for " +++ sid else ""]);
  e ← gets (fun s => ext (fst s));
  on_buffer (EDRBuffer.save_data path e).

End WithNum.
Arguments t T Data : clear implicits.
End EDRSensor.

(** ** [edr/edr.py]: class [EDR]

    The recorder holds references to its sensors; the sensors themselves
    are in [store], where every holder of a reference sees one and the
    same object. *)

Module EDR.
Section WithNum.
Context {T : Type} `{PyNum T} {Data : Type}.

Definition ref : Type := nat.

Record t : Type := mk {
  sensors : list ref;
  triggered : bool;
  event_timestamp : option T;
  reason : string
}.

Record Machine : Type := mkMachine {
  edr : t;
  store : gmap ref (EDRSensor.t T Data);
  world : World Data
}.

Definition set_edr (e : t) (m : Machine) : Machine :=
  mkMachine e (store m) (world m).
Definition set_world (w : World Data) (m : Machine) : Machine :=
  mkMachine (edr m) (store m) w.

Definition on_edr {A} (m : M t A) : M Machine A := zoom edr set_edr m.
Definition on_world {A} (m : M (World Data) A) : M Machine A :=
  zoom world set_world m.

(** A method of the sensor behind a reference.  A reference always leads
    to an object in Python; the model has [Stuck] for one that does not. *)
Definition on_sensor {A} (r : ref) (m : M (EDRSensor.t T Data * World Data) A)
    : M Machine A :=
  fun st =>
    match store st !! r with
    | None => (Raise Stuck, st)
    | Some s =>
        let (res, sw) := m (s, world st) in
        (res, mkMachine (edr st) (<[r := fst sw]> (store st)) (snd sw))
    end.

(** Assignments to attributes of [self]. *)
Definition set_sensors (l : list ref) (self : t) : t :=
  mk l (triggered self) (event_timestamp self) (reason self).
Definition set_triggered (b : bool) (self : t) : t :=
  mk (sensors self) b (event_timestamp self) (reason self).
Definition set_event_timestamp (ts : option T) (self : t) : t :=
  mk (sensors self) (triggered self) ts (reason self).
Definition set_reason (r : string) (self : t) : t :=
  mk (sensors self) (triggered self) (event_timestamp self) r.

(** [EDR.__init__] *)
Definition __init__ : t := mk [] false None "".

(** [EDR.has_triggered] *)
Definition has_triggered : M Machine bool :=
  gets (fun st => triggered (edr st)).

(** [EDR.add_sensor] *)
Definition add_sensor (sensor : ref) : M Machine unit :=
  on_edr (modify (fun self => set_sensors (sensors self ++ [sensor]) self)).

(** [EDR.clear_event] *)
Definition clear_event : M Machine unit :=
  b ← has_triggered;
  if negb b then mret tt
  else
    _ ← on_world (print ["Resetting EDR"]);
    l ← gets (fun st => sensors (edr st));
    _ ← for_each l (fun sensor =>
           on_sensor sensor (on_self (modify EDRSensor.clear_event)));
    _ ← on_edr (modify (set_event_timestamp None));
    _ ← on_edr (modify (set_triggered false));
    on_edr (modify (set_reason "")).

(** [EDR.clear] *)
Definition clear : M Machine unit :=
  _ ← on_edr (modify (set_sensors []));
  clear_event.

(** [EDR.on_event_trigger]; [now] is what [time.time()] returns.  Each
    sensor is handed [self.event_timestamp]; were it [None], the buffer's
    subtraction would raise [TypeError]. *)
Definition on_event_trigger (now : T) (reason : string) : M Machine unit :=
  b ← has_triggered;
  if (b : bool) then mret tt
  else
    _ ← on_world (print ["EDR Triggered - " +++ reason +++ "!"]);
    _ ← on_edr (modify (set_triggered true));
    _ ← on_edr (modify (set_event_timestamp (Some now)));
    _ ← on_edr (modify (set_reason reason));
    l ← gets (fun st => sensors (edr st));
    for_each l (fun sensor =>
      ts ← gets (fun st => event_timestamp (edr st));
      match ts with
      | Some ts => on_sensor sensor (EDRSensor.on_event_trigger ts)
      | None => raise TypeError
      end).

(** [EDR.save_data].  [strftime ts] stands for
    [datetime.datetime.fromtimestamp(ts).strftime("%Y-%m-%d-%H-%M-%S")],
    which depends on the local time zone; [fromtimestamp(None)] raises
    [TypeError]. *)
Definition save_data (strftime : T -> string) (base_path : string)
    : M Machine unit :=
  ts ← gets (fun st => event_timestamp (edr st));
  match ts with
  | None => raise TypeError
  | Some ts =>
      let path := os_path_join base_path [strftime ts] in
      _ ← on_world (makedirs path);
      _ ← on_world (print ["Saving EDR data to:"; path]);
      let reason_filepath := os_path_join path ["reason.txt"] in
      r ← gets (fun st => reason (edr st));
      _ ← on_world (write_file reason_filepath r);
      l ← gets (fun st => sensors (edr st));
      _ ← for_each l (fun sensor => on_sensor sensor (EDRSensor.save_data path));
      _ ← on_world (print ["EDR data saved"]);
      clear_event
  end.

End WithNum.
Arguments t T : clear implicits.
Arguments Machine T Data : clear implicits.
End EDR.

(** ** [carlasim/utilities/separating_axis_theorem.py] *)

Module SAT.
Section WithNum.
Context {T : Type} `{PyNum T}.

Definition point : Type := T * T.

(** [edge_vector] *)
Definition edge_vector (point1 point2 : point) : point :=
  (psub (fst point2) (fst point1), psub (snd point2) (snd point1)).

(** [poly_to_edges]: [poly[i]] and [poly[(i + 1) % len(poly)]] for [i] in
    [range(len(poly))]; no index is out of range, so the default of [nth]
    is never returned. *)
Definition poly_to_edges (poly : list point) : list point :=
  map (fun i =>
         edge_vector (nth i poly (pzero, pzero))
                     (nth ((i + 1) mod length poly) poly (pzero, pzero)))
      (seq 0 (length poly)).

(** [orthogonal] *)
Definition orthogonal (vector : point) : point :=
  (snd vector, pneg (fst vector)).

(** [dot_product] *)
Definition dot_product (vector1 vector2 : point) : T :=
  padd (pmul (fst vector1) (fst vector2)) (pmul (snd vector1) (snd vector2)).

(** The builtins [min] and [max] on an iterable: the first item is kept
    until a later one is strictly smaller (greater); an empty iterable
    raises [ValueError]. *)
Definition py_min (l : list T) : Res T :=
  match l with
  | [] => Raise ValueError
  | x :: r => Ok (fold_left (fun m y => if plt y m then y else m) r x)
  end.

Definition py_max (l : list T) : Res T :=
  match l with
  | [] => Raise ValueError
  | x :: r => Ok (fold_left (fun m y => if pgt y m then y else m) r x)
  end.

(** [project] *)
Definition project (poly : list point) (axis : point) : Res (T * T) :=
  let dots := map (fun point => dot_product point axis) poly in
  lo ← py_min dots;
  hi ← py_max dots;
  mret (lo, hi).

(** [overlap]: [min] and [max] of a pair are those of its two items. *)
Definition overlap (projection1 projection2 : T * T) : Res bool :=
  min1 ← py_min [fst projection1; snd projection1];
  max2 ← py_max [fst projection2; snd projection2];
  if ple min1 max2 then
    min2 ← py_min [fst projection2; snd projection2];
    max1 ← py_max [fst projection1; snd projection1];
    mret (ple min2 max1)
  else mret false.

(** The [for] loop of [has_collided]. *)
Fixpoint has_collided_loop (poly1 poly2 : list point) (axes : list point)
    : Res bool :=
  match axes with
  | [] => Ok true
  | axis :: axes' =>
      p1 ← project poly1 axis;
      p2 ← project poly2 axis;
      overlapping ← overlap p1 p2;
      if negb overlapping then Ok false
      else has_collided_loop poly1 poly2 axes'
  end.

(** [has_collided] *)
Definition has_collided (poly1 poly2 : list point) : Res bool :=
  let edges := poly_to_edges poly1 ++ poly_to_edges poly2 in
  let axes := map orthogonal edges in
  has_collided_loop poly1 poly2 axes.

End WithNum.
End SAT.

(** ** [carlasim/core/world.py]: class [World], the recorder's part

    The attributes the four recorder methods of [World] read or assign.
    [edr] is the [EDR] object together with its sensors and the world
    outside. *)

Module CarlaWorld.
Section WithNum.
Context {T : Type} `{PyNum T} {Data : Type}.

(** [EDR_SAVE_DELAY = 2.0]; both kinds of numbers compute [1.0 + 1.0]
    exactly. *)
Definition EDR_SAVE_DELAY : T := padd pone pone.

Record t : Type := mk {
  edr : EDR.Machine T Data;
  edr_enabled : bool;
  data_path : string;
  _edr_autosave : bool;
  _edr_savetime : option T;
  _edr_posttime : T
}.

Definition set_edr (m : EDR.Machine T Data) (self : t) : t :=
  mk m (edr_enabled self) (data_path self) (_edr_autosave self)
     (_edr_savetime self) (_edr_posttime self).
Definition set__edr_savetime (ts : option T) (self : t) : t :=
  mk (edr self) (edr_enabled self) (data_path self) (_edr_autosave self)
     ts (_edr_posttime self).

(** A method of [self.edr]. *)
Definition on_edr {A} (m : M (EDR.Machine T Data) A) : M t A :=
  zoom edr set_edr m.

(** [World.trigger_edr_event]; the clock is read twice: [now] by
    [EDR.on_event_trigger], [later] by the line after it. *)
Definition trigger_edr_event (now later : T) (reason : string) : M t unit :=
  enabled ← gets edr_enabled;
  if (enabled : bool) then
    _ ← on_edr (EDR.on_event_trigger now reason);
    posttime ← gets _edr_posttime;
    modify (set__edr_savetime
              (Some (padd (padd later posttime) EDR_SAVE_DELAY)))
  else mret tt.

(** [World.save_edr_data] *)
Definition save_edr_data (strftime : T -> string) : M t unit :=
  enabled ← gets edr_enabled;
  if (enabled : bool) then
    path ← gets data_path;
    on_edr (EDR.save_data strftime path)
  else mret tt.

(** [World.clear_edr_event] *)
Definition clear_edr_event : M t unit :=
  enabled ← gets edr_enabled;
  if (enabled : bool) then on_edr EDR.clear_event else mret tt.

(** [World.check_edr_autosave]; [now] is the clock, read only when the
    recorder is enabled and a save time is set. *)
Definition check_edr_autosave (strftime : T -> string) (now : T) : M t unit :=
  enabled ← gets edr_enabled;
  savetime ← gets _edr_savetime;
  match enabled, savetime with
  | true, Some savetime =>
      if pgt now savetime then
        _ ← modify (set__edr_savetime None);
        autosave ← gets _edr_autosave;
        if (autosave : bool) then save_edr_data strftime
        else on_edr (EDR.on_world
               (print ["EDR data ready. Press 'J' to save or 'G' to clear."]))
      else mret tt
  | _, _ => mret tt
  end.

(** [World._is_vru]: cyclists and pedestrians. *)
Definition _is_vru (actor_type : string) : bool :=
  String.eqb actor_type "vehicle.bh.crossbike"
  || String.eqb actor_type "vehicle.gazelle.omafiets"
  || String.eqb actor_type "vehicle.diamondback.century"
  || String.prefix "walker." actor_type.

End WithNum.
Arguments t T Data : clear implicits.
End CarlaWorld.

(** ** [carlasim/core/utilities.py] and [edr/near_miss_logger.py]: names *)

(** [s.split(sep)] for a separator of one character: the pieces between
    the separators, at least one. *)
Fixpoint split (sep : ascii) (s : string) : list string :=
  match s with
  | EmptyString => [""]
  | String c r =>
      if Ascii.eqb c sep then "" :: split sep r
      else match split sep r with
           | piece :: pieces => String c piece :: pieces
           | [] => [String c ""]
           end
  end.

(** [get_actor_type], of the actor's [type_id]: [bp_parts[0]] and
    [bp_parts[-1]] exist, [split] returning at least one piece. *)
Definition get_actor_type (type_id : string) : string :=
  let bp_parts := split "." type_id in
  let actor_type := nth 0 bp_parts "" in
  if String.eqb actor_type "vehicle" then
    let name := List.last bp_parts "" in
    if String.eqb name "crossbike" || String.eqb name "omafiets"
       || String.eqb name "century" then "bicycle"
    else if String.eqb name "ninja" || String.eqb name "yzf"
            || String.eqb name "low_rider" then "motorbike"
    else if String.eqb name "police" || String.eqb name "chargercop2020"
    then "emergency"
    else if String.eqb name "carlacola" then "truck"
    else if String.eqb name "t2" then "campervan"
    else "car"
  else if String.eqb actor_type "walker" then "pedestrian"
  else actor_type.

(** [get_proximity_threshold]: [0.75], [1.0] and [0.0]. *)
Definition get_proximity_threshold (actor_type : string) : Q :=
  if String.eqb actor_type "pedestrian" then (3 # 4)%Q
  else if String.eqb actor_type "bicycle" then 1%Q
  else 0%Q.

(** [NearMissLogger._get_base_map_name] *)
Definition _get_base_map_name (map_name : string) : string :=
  nth 0 (split "_" map_name) "".

(** ** Vocabulary of the properties *)

(** A sequence of [on_data] calls, one per sample, in order. *)
Definition on_data_seq {T} `{PyNum T} {Data}
    (samples : list (T * Data)) (b : EDRBuffer.t T Data) : EDRBuffer.t T Data :=
  fold_left (fun b s => EDRBuffer.on_data (fst s) (snd s) b) samples b.

(** Consecutive timestamps are at least [dt] apart. *)
Fixpoint spaced (dt : Q) (ts : list Q) : Prop :=
  match ts with
  | t1 :: (t2 :: _) as rest => (dt <= t2 - t1)%Q /\ spaced dt rest
  | _ => True
  end.

(** A buffer on which nothing but [on_data] was called since its
    construction with a ring of [cap] places. *)
Definition pre_trigger {T Data} (cap : nat) (b : EDRBuffer.t T Data) : Prop :=
  EDRBuffer.saving b = false /\
  EDRBuffer.event_timestamp b = None /\
  EDRBuffer.end_timestamp b = None /\
  deque.maxlen (EDRBuffer.preevent_buffer b) = Some cap /\
  (length (deque.items (EDRBuffer.preevent_buffer b)) <= cap)%nat /\
  deque.items (EDRBuffer.postevent_buffer b) = [] /\
  deque.maxlen (EDRBuffer.postevent_buffer b) = None.



(** The spec's scenario with the timestamps as Python reads the literals
    [0.0], [0.1], ..., [4.2]: the nearest binary64 numbers. *)
Definition binary64_history : list (float * nat) :=
  [(0.0%float, 0%nat); (0.1%float, 1%nat); (0.2%float, 2%nat); (0.3%float, 3%nat); (0.4%float, 4%nat); (0.5%float, 5%nat); (0.6%float, 6%nat); (0.7%float, 7%nat); (0.8%float, 8%nat); (0.9%float, 9%nat); (1.0%float, 10%nat); (1.1%float, 11%nat); (1.2%float, 12%nat); (1.3%float, 13%nat); (1.4%float, 14%nat); (1.5%float, 15%nat); (1.6%float, 16%nat); (1.7%float, 17%nat); (1.8%float, 18%nat); (1.9%float, 19%nat); (2.0%float, 20%nat); (2.1%float, 21%nat); (2.2%float, 22%nat); (2.3%float, 23%nat); (2.4%float, 24%nat); (2.5%float, 25%nat); (2.6%float, 26%nat); (2.7%float, 27%nat); (2.8%float, 28%nat); (2.9%float, 29%nat)].

(** *** The recorder and its sensors *)

Section RecorderVocabulary.
Context {T : Type} `{PyNum T} {Data : Type}.

(** The buffer and the sensor after [on_event_trigger ts]. *)
Definition trigger_buffer (ts : T) (b : EDRBuffer.t T Data) : EDRBuffer.t T Data :=
  EDRBuffer.set_event (Some ts)
    (Some (psub ts (EDRBuffer.preevent_time b)))
    (Some (padd ts (EDRBuffer.postevent_time b))) b.

Definition trigger_sensor (ts : T) (s : EDRSensor.t T Data) : EDRSensor.t T Data :=
  EDRSensor.set_edr_buffer (trigger_buffer ts (EDRSensor.edr_buffer s)) s.


(** The samples of a buffer that lie in its window, ring first. *)
Definition window_items (b : EDRBuffer.t T Data) : list (T * Data) :=
  match EDRBuffer.start_timestamp b, EDRBuffer.end_timestamp b with
  | Some start, Some stop =>
      filter (fun item => pge (fst item) start = true)
             (deque.items (EDRBuffer.preevent_buffer b)) ++
      filter (fun item => ple (fst item) stop = true)
             (deque.items (EDRBuffer.postevent_buffer b))
  | _, _ => []
  end.



(** One call on the recorder, or anything that happens to the sensors and
    the world between two calls. *)
Inductive edr_step : EDR.Machine T Data -> EDR.Machine T Data -> Prop :=
| step_add_sensor st r :
    edr_step st (snd (EDR.add_sensor r st))
| step_clear st :
    edr_step st (snd (EDR.clear st))
| step_clear_event st :
    edr_step st (snd (EDR.clear_event st))
| step_on_event_trigger st now reason :
    edr_step st (snd (EDR.on_event_trigger now reason st))
| step_save_data st strftime base_path :
    edr_step st (snd (EDR.save_data strftime base_path st))
| step_elsewhere st store' world' :
    edr_step st (EDR.mkMachine (EDR.edr st) store' world').

(** The states of a recorder made by [EDR()]. *)
Inductive reachable : EDR.Machine T Data -> Prop :=
| reachable_init store world :
    reachable (EDR.mkMachine EDR.__init__ store world)
| reachable_step st st' :
    reachable st -> edr_step st st' -> reachable st'.

End RecorderVocabulary.

(** The recorder's two event fields agree. *)
Definition consistent {T} (e : EDR.t T) : Prop :=
  EDR.triggered e = false <-> EDR.event_timestamp e = None.

(** A computation that, however it ends, leaves a recorder satisfying [I]
    if it started with one. *)
Definition keeps {T Data A} (I : EDR.t T -> Prop)
    (m : M (EDR.Machine T Data) A) : Prop :=
  forall st, I (EDR.edr st) -> I (EDR.edr (snd (m st))).

(** A recorder with two cameras, for examples. *)
Definition example_sensor (id : string) : EDRSensor.t Q nat :=
  EDRSensor.mk "EDRCamera" "images" id
    (EDRBuffer.mk "images" id 2%Q 1%Q 10%Q (1 # 10)%Q
       (deque.mk [] (Some 20%nat)) (deque.mk [] None)
       None None None None false)
    ".png".

Definition example_machine : EDR.Machine Q nat :=
  EDR.mkMachine (EDR.mk [0%nat; 1%nat] false None "")
    (<[0%nat := example_sensor "front"]>
       (<[1%nat := example_sensor "rear"]> ∅))
    (mkWorld [] []).

(** The same recorder triggered at 3.0, each camera holding one sample
    before and one after the event. *)
Definition example_recording (id : string) : EDRSensor.t Q nat :=
  EDRSensor.mk "EDRCamera" "images" id
    (EDRBuffer.mk "images" id 2%Q 1%Q 10%Q (1 # 10)%Q
       (deque.mk [((5 # 2)%Q, 25%nat)] (Some 20%nat))
       (deque.mk [((7 # 2)%Q, 35%nat)] None)
       (Some 3%Q) (Some (3 - 2)%Q) (Some (3 + 1)%Q) (Some (36 # 10)%Q) false)
    ".png".

Definition example_triggered : EDR.Machine Q nat :=
  EDR.mkMachine (EDR.mk [0%nat; 1%nat] true (Some 3%Q) "manual")
    (<[0%nat := example_recording "front"]>
       (<[1%nat := example_recording "rear"]> ∅))
    (mkWorld [] []).

(** *** Polygons *)




(** The projections of the two polygons on [axis] do not overlap: one
    polygon lies strictly beyond the other along the axis. *)
Definition separated_on (axis : Q * Q) (poly1 poly2 : list (Q * Q)) : Prop :=
  (forall u v, In u poly1 -> In v poly2 ->
     (SAT.dot_product v axis < SAT.dot_product u axis)%Q) \/
  (forall u v, In u poly1 -> In v poly2 ->
     (SAT.dot_product u axis < SAT.dot_product v axis)%Q).

(** The axis-aligned unit square centred at [(cx, 0)]. *)
Definition unit_square (cx : Q) : list (Q * Q) :=
  [((cx - (1 # 2))%Q, (- (1 # 2))%Q); ((cx + (1 # 2))%Q, (- (1 # 2))%Q);
   ((cx + (1 # 2))%Q, (1 # 2)%Q); ((cx - (1 # 2))%Q, (1 # 2)%Q)].

(** *** Histories of a buffer *)

(** What follows from [x] by any number of steps. *)
Inductive after {A : Type} (step : A -> A -> Prop) (x : A) : A -> Prop :=
| after_none : after step x x
| after_step y z : after step x y -> step y z -> after step x z.

(** A computation on an object and the world that leaves the object as it
    was. *)
Definition frames {S W A} (m : M (S * W) A) : Prop :=
  forall s, fst (snd (m s)) = fst s.

(** The [saving] flag after [save_data]: cleared by a normal return, left
    set by an exception. *)
Definition saving_after {A} (r : Res A) : bool :=
  match r with
  | Ok _ => false
  | Raise _ => true
  end.

Section BufferVocabulary.
Context {T : Type} `{PyNum T} {Data : Type}.

(** One call of [on_data], [on_event_trigger] or [clear]; a trigger that
    raises leaves the buffer as it was. *)
Inductive buffer_call : EDRBuffer.t T Data -> EDRBuffer.t T Data -> Prop :=
| call_on_data b t d :
    buffer_call b (EDRBuffer.on_data t d b)
| call_on_event_trigger b ts :
    buffer_call b (snd (EDRBuffer.on_event_trigger ts b))
| call_clear b :
    buffer_call b (EDRBuffer.clear b).

(** One call of any of the four methods; [save_data] with any arguments
    and any state of the disk. *)
Inductive buffer_step : EDRBuffer.t T Data -> EDRBuffer.t T Data -> Prop :=
| buffer_step_call b b' :
    buffer_call b b' -> buffer_step b b'
| buffer_step_save_data b base_path ext w :
    buffer_step b (fst (snd (EDRBuffer.save_data base_path ext (b, w)))).

(** The fields no method assigns after construction, and the bounds of
    the two queues. *)
Definition same_setup (b c : EDRBuffer.t T Data) : Prop :=
  EDRBuffer.sensor_type c = EDRBuffer.sensor_type b /\
  EDRBuffer.sensor_id c = EDRBuffer.sensor_id b /\
  EDRBuffer.preevent_time c = EDRBuffer.preevent_time b /\
  EDRBuffer.postevent_time c = EDRBuffer.postevent_time b /\
  EDRBuffer.max_sample_rate c = EDRBuffer.max_sample_rate b /\
  EDRBuffer.sample_interval c = EDRBuffer.sample_interval b /\
  deque.maxlen (EDRBuffer.preevent_buffer c) =
    deque.maxlen (EDRBuffer.preevent_buffer b) /\
  deque.maxlen (EDRBuffer.postevent_buffer c) =
    deque.maxlen (EDRBuffer.postevent_buffer b).

(** The samples a buffer holds, in the order they were accepted. *)
Definition stored (b : EDRBuffer.t T Data) : list (T * Data) :=
  deque.items (EDRBuffer.preevent_buffer b) ++
  deque.items (EDRBuffer.postevent_buffer b).

End BufferVocabulary.

Section BufferInvariants.
Context {Data : Type}.

(** The rate limit at work: the stored timestamps are at least
    [sample_interval] apart, the next one accepted will be as far from the
    last, and the post-event queue is unbounded and used only after a
    trigger. *)
Definition rate_limited (b : EDRBuffer.t Q Data) : Prop :=
  let ts := map fst (stored b) in
  spaced (EDRBuffer.sample_interval b) ts /\
  (forall t, last ts = Some t ->
     exists n, EDRBuffer.next_timestamp b = Some n /\
               (t + EDRBuffer.sample_interval b <= n)%Q) /\
  (EDRBuffer.event_timestamp b = None ->
     deque.items (EDRBuffer.postevent_buffer b) = []) /\
  deque.maxlen (EDRBuffer.postevent_buffer b) = None.

(** The post-event queue holds nothing from after the window. *)
Definition windowed (b : EDRBuffer.t Q Data) : Prop :=
  (EDRBuffer.event_timestamp b = None ->
     deque.items (EDRBuffer.postevent_buffer b) = []) /\
  deque.maxlen (EDRBuffer.postevent_buffer b) = None /\
  forall stop, EDRBuffer.end_timestamp b = Some stop ->
    Forall (fun item => (fst item <= stop)%Q)
           (deque.items (EDRBuffer.postevent_buffer b)).

End BufferInvariants.

(** A camera's buffer as [__init__] makes it for two seconds before and
    one second after the event at 10 Hz; the same after a sample, a trigger
    at 3.0 and another sample; a binary64 buffer of the same shape. *)
Definition example_buffer : EDRBuffer.t Q nat :=
  EDRSensor.edr_buffer (example_sensor "cam").

Definition example_history : EDRBuffer.t Q nat :=
  EDRBuffer.on_data (7 # 2)%Q 35%nat
    (snd (EDRBuffer.on_event_trigger 3%Q
            (EDRBuffer.on_data (5 # 2)%Q 25%nat example_buffer))).

Definition example_float_buffer : EDRBuffer.t float nat :=
  EDRBuffer.mk "images" "cam" 2%float 1%float 10%float 0.1%float
    (deque.mk [] (Some 20%nat)) (deque.mk [] None)
    None None None None false.

(** A disk that refuses the camera's folder. *)
Definition example_full_disk : World nat := mkWorld [] ["out/images/cam"].

(** *** States of the recorder *)


(** A recorder ready for an event: idle, its sensors distinct objects
    whose buffers have no event. *)
Definition armed {T Data} (st : EDR.Machine T Data) : Prop :=
  EDR.triggered (EDR.edr st) = false /\
  NoDup (EDR.sensors (EDR.edr st)) /\
  forall r, r ∈ EDR.sensors (EDR.edr st) ->
    exists s, EDR.store st !! r = Some s /\
      EDRBuffer.event_timestamp (EDRSensor.edr_buffer s) = None.

(** *** Convex hulls *)

(** A weighted sum of points, and the sum of its weights. *)
Fixpoint weighted_sum (wps : list (Q * (Q * Q))) : Q * Q :=
  match wps with
  | [] => (0, 0)%Q
  | wp :: rest =>
      (fst wp * fst (snd wp) + fst (weighted_sum rest),
       fst wp * snd (snd wp) + snd (weighted_sum rest))%Q
  end.

Fixpoint total_weight (wps : list (Q * (Q * Q))) : Q :=
  match wps with
  | [] => 0%Q
  | wp :: rest => (fst wp + total_weight rest)%Q
  end.

(** [x] lies in the convex hull of the vertices of [poly]: it is a
    weighted sum of vertices, with weights, none negative, that add up to
    one. *)
Definition in_hull (poly : list (Q * Q)) (x : Q * Q) : Prop :=
  exists wps,
    Forall (fun wp => (0 <= fst wp)%Q /\ In (snd wp) poly) wps /\
    (total_weight wps == 1)%Q /\
    (fst x == fst (weighted_sum wps))%Q /\
    (snd x == snd (weighted_sum wps))%Q.

(** *** Names *)

(** [c in s] *)
Fixpoint has_char (c : ascii) (s : string) : bool :=
  match s with
  | EmptyString => false
  | String c' r => Ascii.eqb c' c || has_char c r
  end.

(** The simulator's [World] around the example recorder: enabled, saving
    by itself one second and the delay after an event. *)
Definition example_world : CarlaWorld.t Q nat :=
  CarlaWorld.mk example_machine true "out" true None 1%Q.

(** *** What a computation writes *)

(** The path an effect touches, if it touches the disk. *)
Definition effect_path {Data} (e : Effect Data) : option string :=
  match e with
  | Print _ => None
  | MakeDirs path => Some path
  | WriteFile path _ => Some path
  | SaveToDisk path _ => Some path
  end.

(** An effect on a path that begins with [base]. *)
Definition touches_under {Data} (base : string) (e : Effect Data) : Prop :=
  exists path, effect_path e = Some path /\ String.prefix base path = true.

(** A computation that keeps [I] on its object and, however it ends, adds
    to the log nothing but effects that satisfy [P]. *)
Definition adds {S Data A} (I : S -> Prop) (P : Effect Data -> Prop)
    (m : M (S * World Data) A) : Prop :=
  forall s, I (fst s) ->
    I (fst (snd (m s))) /\
    exists l, log (snd (snd (m s))) = log (snd s) ++ l /\ Forall P l.

(** *** What a failure leaves of the recorder *)

(** A computation that never assigns to the recorder's fields, and one
    that has not assigned to them when it raises. *)
Definition quiet {T Data A} (m : M (EDR.Machine T Data) A) : Prop :=
  forall st, EDR.edr (snd (m st)) = EDR.edr st.

Definition undone_on_raise {T Data A} (m : M (EDR.Machine T Data) A) : Prop :=
  forall st e, fst (m st) = Raise e -> EDR.edr (snd (m st)) = EDR.edr st.

(** ** Rationals and deques *)

(** Order between two rational constants. *)
Ltac q_order := unfold Qle, Qlt; simpl; lia.


Lemma Qlt_bool_iff (a b : Q) : Qlt_bool a b = true <-> (a < b)%Q.
Proof.
  unfold Qlt_bool. rewrite negb_true_iff.
  destruct (Qle_bool b a) eqn:E.
  - apply Qle_bool_iff in E. split; [discriminate | intros; lra].
  - split; [intros _ | done].
    apply Qnot_le_lt. intros Hle. apply Qle_bool_iff in Hle. congruence.
Qed.

Lemma Qlt_bool_false (a b : Q) : Qlt_bool a b = false <-> (b <= a)%Q.
Proof.
  unfold Qlt_bool. rewrite negb_false_iff. apply Qle_bool_iff.
Qed.

Lemma Qle_bool_false (a b : Q) : Qle_bool a b = false <-> (b < a)%Q.
Proof.
  rewrite <- Qlt_bool_iff. unfold Qlt_bool. destruct (Qle_bool a b); simpl; split; congruence.
Qed.

Section Deque.
Context {A : Type}.
Implicit Types (q : deque.t A) (x : A) (l : list A).

Lemma append_maxlen x q : deque.maxlen (deque.append x q) = deque.maxlen q.
Proof. unfold deque.append. destruct (deque.maxlen q); [case_match|]; done. Qed.

Lemma append_unbounded x q :
  deque.maxlen q = None -> deque.items (deque.append x q) = deque.items q ++ [x].
Proof. unfold deque.append. intros ->. done. Qed.

Lemma append_room x q n :
  deque.maxlen q = Some n -> (length (deque.items q) < n)%nat ->
  deque.items (deque.append x q) = deque.items q ++ [x].
Proof.
  unfold deque.append. intros -> Hlen.
  rewrite length_app. simpl.
  destruct (Nat.ltb_spec n (length (deque.items q) + 1)); [lia | done].
Qed.

Lemma append_full x q n :
  deque.maxlen q = Some n -> length (deque.items q) = n ->
  deque.items (deque.append x q) = tail (deque.items q ++ [x]).
Proof.
  unfold deque.append. intros -> Hlen.
  rewrite length_app. simpl.
  destruct (Nat.ltb_spec n (length (deque.items q) + 1)); [done | lia].
Qed.

Lemma append_bounded x q n :
  deque.maxlen q = Some n -> (length (deque.items q) <= n)%nat ->
  deque.items (deque.append x q) =
    skipn (length (deque.items q ++ [x]) - n) (deque.items q ++ [x]).
Proof.
  intros Hm Hlen.
  destruct (decide (length (deque.items q) = n)) as [Heq | Hne].
  - rewrite (append_full x q n) by done.
    rewrite length_app. simpl. replace (length (deque.items q) + 1 - n)%nat with 1%nat by lia.
    by destruct (deque.items q ++ [x]).
  - rewrite (append_room x q n) by (done || lia).
    rewrite length_app. simpl. replace (length (deque.items q) + 1 - n)%nat with 0%nat by lia.
    done.
Qed.
End Deque.

(** ** The buffer before a trigger *)

Section BufferQ.
Context {Data : Type}.
Implicit Types (b : EDRBuffer.t Q Data) (t : Q) (d : Data).


Lemma on_data_accept b t d :
  EDRBuffer.saving b = false ->
  EDRBuffer.event_storage_finished t b = false ->
  EDRBuffer.too_soon t b = false ->
  EDRBuffer.on_data t d b =
    let b' := EDRBuffer.set_next_timestamp
                (Some (t + EDRBuffer.sample_interval b)%Q) b in
    match EDRBuffer.event_timestamp b with
    | None => EDRBuffer.set_preevent_buffer
                (deque.append (t, d) (EDRBuffer.preevent_buffer b)) b'
    | Some _ => EDRBuffer.set_postevent_buffer
                (deque.append (t, d) (EDRBuffer.postevent_buffer b)) b'
    end.
Proof. unfold EDRBuffer.on_data. by intros -> -> ->. Qed.

Lemma on_data_seq_cons (s : Q * Data) samples b :
  on_data_seq (s :: samples) b =
    on_data_seq samples (EDRBuffer.on_data (fst s) (snd s) b).
Proof. done. Qed.


Lemma on_data_pre_trigger cap b t d :
  pre_trigger cap b -> pre_trigger cap (EDRBuffer.on_data t d b).
Proof.
  intros (Hs & He & Hend & Hm & Hlen & Hpost & Hpm).
  unfold EDRBuffer.on_data, EDRBuffer.event_storage_finished.
  rewrite Hs, Hend.
  destruct (EDRBuffer.too_soon t b); [done|].
  cbn. rewrite He.
  repeat split; cbn; try done.
  - by rewrite append_maxlen.
  - rewrite (append_bounded _ _ cap) by done.
    rewrite length_skipn, length_app. simpl. lia.
Qed.

Lemma on_data_seq_pre_trigger cap samples b :
  pre_trigger cap b -> pre_trigger cap (on_data_seq samples b).
Proof.
  revert b. induction samples as [|s l IH]; intros b Hb; [done|].
  rewrite on_data_seq_cons. apply IH. by apply on_data_pre_trigger.
Qed.

Lemma on_data_sample_interval b t d :
  EDRBuffer.sample_interval (EDRBuffer.on_data t d b) = EDRBuffer.sample_interval b.
Proof.
  unfold EDRBuffer.on_data.
  repeat case_match; done.
Qed.

Lemma on_data_seq_sample_interval samples b :
  EDRBuffer.sample_interval (on_data_seq samples b) = EDRBuffer.sample_interval b.
Proof.
  revert b. induction samples as [|s l IH]; intros b; [done|].
  rewrite on_data_seq_cons, IH. apply on_data_sample_interval.
Qed.

Lemma skipn_app_plus {A} (m l : list A) (k j : nat) :
  (k <= length m)%nat -> skipn (k + j) (m ++ l) = skipn j (skipn k m ++ l).
Proof.
  intros Hk. rewrite Nat.add_comm, <- skipn_skipn.
  f_equal. rewrite skipn_app.
  replace (k - length m)%nat with 0%nat by lia. done.
Qed.

(** The ring after a run of samples none of which comes too soon. *)
Lemma ring_after_spaced_samples cap (samples : list (Q * Data)) b :
  pre_trigger cap b ->
  spaced (EDRBuffer.sample_interval b) (map fst samples) ->
  match EDRBuffer.next_timestamp b, samples with
  | Some n, s :: _ => (n <= fst s)%Q
  | _, _ => True
  end ->
  let all := deque.items (EDRBuffer.preevent_buffer b) ++ samples in
  deque.items (EDRBuffer.preevent_buffer (on_data_seq samples b)) =
    skipn (length all - cap) all.
Proof.
  revert b. induction samples as [|[t d] l IH]; intros b Hb Hsp Hnext all.
  - subst all. cbn. rewrite app_nil_r.
    destruct Hb as (_ & _ & _ & _ & Hlen & _ & _).
    replace (_ - cap)%nat with 0%nat by lia. done.
  - pose proof Hb as (Hs & He & Hend & Hm & Hlen & Hpost & Hpm).
    assert (Hsoon : EDRBuffer.too_soon t b = false).
    { unfold EDRBuffer.too_soon. destruct (EDRBuffer.next_timestamp b); [|done].
      cbn in *. by apply Qlt_bool_false. }
    assert (Hfin : EDRBuffer.event_storage_finished t b = false).
    { unfold EDRBuffer.event_storage_finished. by rewrite Hend. }
    rewrite on_data_seq_cons. cbn [fst snd].
    pose proof (on_data_pre_trigger cap b t d Hb) as Hb'.
    rewrite IH; [| done | |].
    + rewrite (on_data_accept b t d) by done. rewrite He. cbn.
      rewrite (append_bounded _ _ cap) by done.
      subst all.
      set (q := deque.items (EDRBuffer.preevent_buffer b)) in *.
      set (m := q ++ [(t, d)]).
      replace (q ++ (t, d) :: l) with (m ++ l) by (subst m; by rewrite <- app_assoc).
      rewrite <- skipn_app_plus by lia.
      f_equal. rewrite !length_app, length_skipn. subst m. rewrite length_app. simpl. lia.
    + rewrite on_data_sample_interval. cbn in Hsp. destruct l; [done|]. apply Hsp.
    + rewrite (on_data_accept b t d) by done. rewrite He. cbn.
      destruct l as [|[t2 d2] l']; [done|].
      cbn in Hsp |- *. destruct Hsp as [Hsp _]. lra.
Qed.

End BufferQ.

Section BufferClaims.
Context {Data : Type}.
Implicit Types (b c : EDRBuffer.t Q Data) (t : Q) (d : Data).

(** What [__init__] returns, when it returns. *)
Lemma init_inv (stype sid : string) (p post r : Q) b :
  EDRBuffer.__init__ stype sid p post r = Ok b ->
  exists cap : nat,
    b = EDRBuffer.mk stype sid p post r
          (if Qle_bool r 0 then 1%Q else (1 / r)%Q)
          (deque.mk [] (Some cap)) (deque.mk [] None)
          None None None None false /\
    cap = Z.to_nat (Qint (p * r)).
Proof.
  unfold EDRBuffer.__init__. cbn.
  destruct (Z.ltb_spec (Qint (p * r)) 0); cbn; [done|].
  intros [= <-]. eexists. split; reflexivity.
Qed.

Lemma init_pre_trigger (stype sid : string) (p post r : Q) b :
  EDRBuffer.__init__ stype sid p post r = Ok b ->
  exists cap : nat,
    pre_trigger cap b /\
    deque.items (EDRBuffer.preevent_buffer b) = [] /\
    EDRBuffer.next_timestamp b = None /\
    cap = Z.to_nat (Qint (p * r)).
Proof.
  intros Hi. destruct (init_inv _ _ _ _ _ _ Hi) as (cap & -> & Hcap).
  exists cap. repeat split; cbn; try done. lia.
Qed.

Lemma on_data_too_soon b t d :
  EDRBuffer.too_soon t b = true -> EDRBuffer.on_data t d b = b.
Proof. unfold EDRBuffer.on_data. intros ->. by repeat case_match. Qed.


Lemma on_data_saving b t d :
  EDRBuffer.saving b = true -> EDRBuffer.on_data t d b = b.
Proof. unfold EDRBuffer.on_data. by intros ->. Qed.

(** C7: before any trigger, after any run of [on_data] calls on a new
    buffer whose timestamps are at least [sample_interval] apart (they are
    then strictly increasing, the interval being positive), the ring holds
    exactly the [min (number of calls) capacity] most recent samples,
    oldest first. *)
Theorem ring_holds_most_recent_samples
    (stype sid : string) (p post r : Q) b (samples : list (Q * Data)) :
  EDRBuffer.__init__ stype sid p post r = Ok b ->
  spaced (EDRBuffer.sample_interval b) (map fst samples) ->
  exists cap : nat,
    deque.maxlen (EDRBuffer.preevent_buffer b) = Some cap /\
    let ring :=
      deque.items (EDRBuffer.preevent_buffer (on_data_seq samples b)) in
    ring = skipn (length samples - cap) samples /\
    length ring = Nat.min (length samples) cap /\
    EDRBuffer.event_timestamp (on_data_seq samples b) = None.
Proof.
  intros Hi Hsp.
  destruct (init_pre_trigger _ _ _ _ _ _ Hi) as (cap & Hpre & Hitems & Hnext & _).
  exists cap. split; [apply Hpre|].
  pose proof (ring_after_spaced_samples cap samples b Hpre Hsp) as Hring.
  rewrite Hnext, Hitems in Hring. cbn in Hring.
  specialize (Hring I). cbn. rewrite Hring.
  split; [done|]. split.
  - rewrite length_skipn. lia.
  - apply (on_data_seq_pre_trigger cap samples b Hpre).
Qed.


(** C5, amended: the sample interval is [1 / r] for [0 < r] and [1.0] for
    [r <= 0]; in the second case a sample accepted at [t0] makes the rate
    limit reject exactly the timestamps before [t0 + 1]. *)
Theorem sample_interval_of_rate (stype sid : string) (p post r : Q) b :
  EDRBuffer.__init__ stype sid p post r = Ok b ->
  ((0 < r)%Q -> EDRBuffer.sample_interval b = (1 / r)%Q) /\
  ((r <= 0)%Q ->
     EDRBuffer.sample_interval b = 1%Q /\
     forall samples t0 d0 t d,
       let c := on_data_seq samples b in
       EDRBuffer.too_soon t0 c = false ->
       let c' := EDRBuffer.on_data t0 d0 c in
       (EDRBuffer.too_soon t c' = true <-> (t < t0 + 1)%Q) /\
       (EDRBuffer.too_soon t c' = true -> EDRBuffer.on_data t d c' = c')).
Proof.
  intros Hi.
  destruct (init_pre_trigger _ _ _ _ _ _ Hi) as (cap & Hpre & _).
  destruct (init_inv _ _ _ _ _ _ Hi) as (cap' & Hb & _).
  assert (Hint : EDRBuffer.sample_interval b =
                 if Qle_bool r 0 then 1%Q else (1 / r)%Q) by (by rewrite Hb).
  split.
  - intros Hr. rewrite Hint.
    destruct (Qle_bool r 0) eqn:E; [|done]. apply Qle_bool_iff in E. lra.
  - intros Hr. assert (Hone : EDRBuffer.sample_interval b = 1%Q).
    { rewrite Hint. destruct (Qle_bool r 0) eqn:E; [done|].
      apply Qle_bool_false in E. lra. }
    split; [done|]. intros samples t0 d0 t d c Hsoon c'.
    subst c' c.
    pose proof (on_data_seq_pre_trigger cap samples b Hpre) as Hc.
    destruct Hc as (Hs & He & Hend & Hm & Hlen & Hpost & Hpm).
    assert (Hn : EDRBuffer.next_timestamp
                   (EDRBuffer.on_data t0 d0 (on_data_seq samples b)) =
                 Some (t0 + 1)%Q).
    { rewrite on_data_accept; [| done | | done].
      - rewrite He. cbn.
        by rewrite on_data_seq_sample_interval, Hone.
      - unfold EDRBuffer.event_storage_finished. by rewrite Hend. }
    split.
    + unfold EDRBuffer.too_soon. rewrite Hn. cbn. apply Qlt_bool_iff.
    + apply on_data_too_soon.
Qed.

End BufferClaims.



Lemma ring_holds_most_recent_samples_witness :
  exists cap : nat,
    deque.maxlen
      (EDRBuffer.preevent_buffer
         (EDRBuffer.mk "images" "cam" 1%Q 1%Q 2%Q (1 / 2)%Q
            (deque.mk ([] : list (Q * nat)) (Some 2%nat)) (deque.mk [] None)
            None None None None false)) = Some cap /\
    let samples := [(0%Q, 0%nat); ((1 # 2)%Q, 1%nat); (1%Q, 2%nat)] in
    let b := EDRBuffer.mk "images" "cam" 1%Q 1%Q 2%Q (1 / 2)%Q
               (deque.mk ([] : list (Q * nat)) (Some 2%nat)) (deque.mk [] None)
               None None None None false in
    let ring :=
      deque.items (EDRBuffer.preevent_buffer (on_data_seq samples b)) in
    ring = skipn (length samples - cap) samples /\
    length ring = Nat.min (length samples) cap /\
    EDRBuffer.event_timestamp (on_data_seq samples b) = None.
Proof.
  apply (ring_holds_most_recent_samples "images" "cam" 1%Q 1%Q 2%Q).
  - reflexivity.
  - cbn. repeat split; q_order.
Defined.

(** C5 as stated fails: with a rate of zero the interval is one second,
    and a sample half a second after an accepted one is rejected by the
    rate limit, before a trigger and after it, inside the window. *)
Lemma nonpositive_rate_is_throttled :
  exists b b1 : EDRBuffer.t Q unit,
    EDRBuffer.__init__ "vehicle-state" "" 2%Q 1%Q 0%Q = Ok b /\
    EDRBuffer.sample_interval b = 1%Q /\
    EDRBuffer.too_soon (1 # 2)%Q (EDRBuffer.on_data 0%Q tt b) = true /\
    EDRBuffer.on_event_trigger 0%Q b = (Ok tt, b1) /\
    let b2 := EDRBuffer.on_data 0%Q tt b1 in
    deque.items (EDRBuffer.postevent_buffer b2) = [(0%Q, tt)] /\
    EDRBuffer.event_storage_finished (1 # 2)%Q b2 = false /\
    EDRBuffer.too_soon (1 # 2)%Q b2 = true /\
    EDRBuffer.on_data (1 # 2)%Q tt b2 = b2.
Proof. do 2 eexists. repeat split; reflexivity. Qed.

Lemma sample_interval_of_rate_witness :
  let b : EDRBuffer.t Q unit :=
    EDRBuffer.mk "vehicle-state" "" 2%Q 1%Q 0%Q 1%Q
      (deque.mk [] (Some 0%nat)) (deque.mk [] None)
      None None None None false in
  ((0 < 0)%Q -> EDRBuffer.sample_interval b = (1 / 0)%Q) /\
  ((0 <= 0)%Q ->
     EDRBuffer.sample_interval b = 1%Q /\
     forall samples t0 d0 t d,
       let c := on_data_seq samples b in
       EDRBuffer.too_soon t0 c = false ->
       let c' := EDRBuffer.on_data t0 d0 c in
       (EDRBuffer.too_soon t c' = true <-> (t < t0 + 1)%Q) /\
       (EDRBuffer.too_soon t c' = true -> EDRBuffer.on_data t d c' = c')).
Proof.
  apply (sample_interval_of_rate "vehicle-state" "" 2%Q 1%Q 0%Q).
  reflexivity.
Defined.

(** ** The buffer after a trigger *)

Section PostTrigger.
Context {Data : Type}.
Implicit Types (b c : EDRBuffer.t Q Data) (t : Q) (d : Data).









End PostTrigger.

Section WindowClaim.
Context {Data : Type}.
Implicit Types (b c : EDRBuffer.t Q Data) (t : Q) (d : Data).


End WindowClaim.




(** ** Saving a buffer *)

(** C3 fails on the code: [save_data] sets [saving] before the loop and
    clears it after the loop, with nothing to clear it when the loop
    raises.  A buffer with one sample in its window, and a disk that
    refuses the sample's file: [save_data] raises [OSError] and leaves
    [saving] set; from then on every [on_data] is ignored, also after
    [clear]. *)
Lemma save_data_failure_leaves_buffer_locked :
  exists b0 b b' : EDRBuffer.t Q nat,
  exists w' : World nat,
    EDRBuffer.__init__ "images" "cam" 2%Q 1%Q 10%Q = Ok b0 /\
    EDRBuffer.on_event_trigger 2%Q (EDRBuffer.on_data 1%Q 7%nat b0) = (Ok tt, b) /\
    EDRBuffer.saving b = false /\
    EDRBuffer.save_data "out" ".png"
      (b, mkWorld []
            ["out/images/cam/cam_         1.00000000_-1.00000000.png"]) =
      (Raise OSError, (b', w')) /\
    log w' = [MakeDirs "out/images/cam"] /\
    EDRBuffer.saving b' = true /\
    (forall t d, EDRBuffer.on_data t d b' = b') /\
    EDRBuffer.saving (EDRBuffer.clear b') = true /\
    (forall t d, EDRBuffer.on_data t d (EDRBuffer.clear b') = EDRBuffer.clear b').
Proof.
  do 4 eexists. split; [reflexivity|]. split; [reflexivity|].
  split; [reflexivity|]. split; [vm_compute; reflexivity|].
  repeat split; reflexivity.
Qed.

(** ** File names *)

Lemma append_assoc (a b c : string) : (a +++ b) +++ c = a +++ b +++ c.
Proof.
  induction a as [|x a IH]; [reflexivity|].
  change (String x ((a +++ b) +++ c) = String x (a +++ b +++ c)).
  by rewrite IH.
Qed.


Lemma int_digits_length (fuel : nat) (n : Z) (acc : string) :
  (String.length acc <= String.length (int_digits fuel n acc))%nat.
Proof.
  revert n acc. induction fuel as [|f IH]; intros n acc; cbn; [lia|].
  destruct (n / 10 =? 0)%Z; cbn; [lia|].
  etransitivity; [|apply IH]. cbn. lia.
Qed.





Section Filename.
Context {T : Type} `{PyNum T} {Data : Type}.


End Filename.


(** With an empty [sensor_id] the name starts with the padded timestamp. *)
Example saved_file_name_without_id :
  EDRBuffer.item_filename "" (5 # 2)%Q ((5 # 2) - 2)%Q ".json" =
    "         2.50000000_+0.50000000.json".
Proof. reflexivity. Qed.

(** ** The recorder *)

Section Recorder.
Context {T : Type} `{PyNum T} {Data : Type}.
Implicit Types (st : EDR.Machine T Data) (s : EDRSensor.t T Data)
  (r : EDR.ref) (w : World Data).

Lemma bind_ok {S A B} (m : M S A) (f : A -> M S B) (x : S) (a : A) (x' : S) :
  m x = (Ok a, x') -> (m ≫= f) x = f a x'.
Proof. unfold mbind, M_bind. by intros ->. Qed.

Lemma bind_raise {S A B} (m : M S A) (f : A -> M S B) (x : S) e (x' : S) :
  m x = (Raise e, x') -> (m ≫= f) x = (Raise e, x').
Proof. unfold mbind, M_bind. by intros ->. Qed.

Lemma for_each_cons {S A} (a : A) (l : list A) (body : A -> M S unit) :
  for_each (a :: l) body = (body a ≫= fun _ => for_each l body).
Proof. done. Qed.

Lemma Forall2_store_insert (P : EDRSensor.t T Data -> Prop)
    (m : gmap EDR.ref (EDRSensor.t T Data)) r (x : EDRSensor.t T Data)
    (l : list EDR.ref) (ss : list (EDRSensor.t T Data)) :
  r ∉ l ->
  Forall2 (fun r s => m !! r = Some s /\ P s) l ss ->
  Forall2 (fun q s => <[r := x]> m !! q = Some s /\ P s) l ss.
Proof.
  intros Hr Hl. induction Hl as [|q s l ss [Hq HP] _ IH]; [constructor|].
  apply not_elem_of_cons in Hr as [Hne Hr].
  constructor; [|by apply IH].
  by rewrite lookup_insert_ne.
Qed.

(** A loop over the sensors of the recorder whose body, on a sensor that
    satisfies [P], replaces it by [f s] and adds [eff s] to the log. *)
Lemma for_each_sensor (e : EDR.t T) (dn : list string)
    (P : EDRSensor.t T Data -> Prop)
    (f : EDRSensor.t T Data -> EDRSensor.t T Data)
    (eff : EDRSensor.t T Data -> list (Effect Data))
    (body : EDR.ref -> M (EDR.Machine T Data) unit) :
  (forall r st s,
     EDR.edr st = e -> denied (EDR.world st) = dn ->
     EDR.store st !! r = Some s -> P s ->
     body r st =
       (Ok tt,
        EDR.mkMachine e (<[r := f s]> (EDR.store st))
          (mkWorld (log (EDR.world st) ++ eff s) dn))) ->
  forall (l : list EDR.ref) st (ss : list (EDRSensor.t T Data)),
    NoDup l -> EDR.edr st = e -> denied (EDR.world st) = dn ->
    Forall2 (fun r s => EDR.store st !! r = Some s /\ P s) l ss ->
    exists st',
      for_each l body st = (Ok tt, st') /\
      EDR.edr st' = e /\
      EDR.world st' =
        mkWorld (log (EDR.world st) ++ concat (map eff ss)) dn /\
      forall q, EDR.store st' !! q =
                  if decide (q ∈ l) then f <$> EDR.store st !! q
                  else EDR.store st !! q.
Proof.
  intros Hbody l. induction l as [|r l IH]; intros st ss Hnd He Hdn Hss.
  - apply Forall2_nil_inv_l in Hss as ->. exists st.
    split; [done|]. split; [done|]. split.
    + destruct st as [? ? [? ?]]. cbn in *. subst. by rewrite app_nil_r.
    + intros q. case_decide as Hq; [by apply elem_of_nil in Hq | done].
  - apply Forall2_cons_inv_l in Hss as (s & ss' & [Hr HP] & Hss & ->).
    apply NoDup_cons in Hnd as [Hnotin Hnd].
    rewrite for_each_cons.
    erewrite bind_ok by (by apply Hbody).
    destruct (IH (EDR.mkMachine e (<[r := f s]> (EDR.store st))
                    (mkWorld (log (EDR.world st) ++ eff s) dn)) ss')
      as (st' & Hrun & He' & Hw' & Hst'); try done.
    { cbn. by apply Forall2_store_insert. }
    exists st'. split; [done|]. split; [done|]. split.
    + rewrite Hw'. cbn. by rewrite <- app_assoc.
    + intros q. rewrite Hst'. cbn.
      destruct (decide (q = r)) as [-> | Hne].
      * rewrite lookup_insert_eq, Hr.
        rewrite decide_False by done. rewrite decide_True by left. done.
      * rewrite lookup_insert_ne by done.
        case_decide as Hq.
        -- rewrite decide_True by (by right). done.
        -- rewrite decide_False; [done|]. intros [?|?]%elem_of_cons; done.
Qed.


Lemma sensors_in_store (P : EDRSensor.t T Data -> Prop)
    (m : gmap EDR.ref (EDRSensor.t T Data)) (l : list EDR.ref) :
  (forall r, r ∈ l -> exists s, m !! r = Some s /\ P s) ->
  exists ss, Forall2 (fun r s => m !! r = Some s /\ P s) l ss.
Proof.
  induction l as [|r l IH]; intros Hl; [by exists []|].
  destruct (Hl r) as (s & Hs); [by left|].
  destruct IH as (ss & Hss); [intros q Hq; apply Hl; by right|].
  exists (s :: ss). by constructor.
Qed.

Lemma concat_map_nil {A B} (l : list A) :
  concat (map (fun _ => @nil B) l) = [].
Proof. induction l; [done | by cbn]. Qed.

Lemma world_eta w : mkWorld (log w) (denied w) = w.
Proof. by destruct w. Qed.

Lemma machine_eta st :
  EDR.mkMachine (EDR.edr st) (EDR.store st) (EDR.world st) = st.
Proof. by destruct st. Qed.

Lemma sensor_trigger_ok s w (ts : T) :
  EDRBuffer.event_timestamp (EDRSensor.edr_buffer s) = None ->
  EDRSensor.on_event_trigger ts (s, w) = (Ok tt, (trigger_sensor ts s, w)).
Proof.
  intros Hs.
  unfold EDRSensor.on_event_trigger, EDRSensor.on_buffer, on_self, zoom.
  cbn [fst snd]. unfold EDRBuffer.on_event_trigger. by rewrite Hs.
Qed.


(** The invariant that ties [triggered] to [event_timestamp]. *)

Lemma keeps_bind {A B} (I : EDR.t T -> Prop)
    (m : M (EDR.Machine T Data) A) (f : A -> M (EDR.Machine T Data) B) :
  keeps I m -> (forall a, keeps I (f a)) -> keeps I (m ≫= f).
Proof.
  intros Hm Hf st HI. unfold mbind, M_bind.
  specialize (Hm st HI). destruct (m st) as [[a|e] st1]; cbn in *; [|done].
  by apply Hf.
Qed.

Lemma keeps_on_world {A} (I : EDR.t T -> Prop) (m : M (World Data) A) :
  keeps I (EDR.on_world m).
Proof.
  intros st HI. unfold EDR.on_world, zoom.
  by destruct (m (EDR.world st)).
Qed.

Lemma keeps_on_sensor {A} (I : EDR.t T -> Prop) r
    (m : M (EDRSensor.t T Data * World Data) A) :
  keeps I (EDR.on_sensor r m).
Proof.
  intros st HI. unfold EDR.on_sensor.
  destruct (EDR.store st !! r) as [s|]; [|done].
  by destruct (m (s, EDR.world st)).
Qed.

Lemma keeps_gets {A} (I : EDR.t T -> Prop) (f : EDR.Machine T Data -> A) :
  keeps I (gets f).
Proof. by intros st HI. Qed.

Lemma keeps_ret {A} (I : EDR.t T -> Prop) (a : A) :
  keeps I (mret a : M (EDR.Machine T Data) A).
Proof. by intros st HI. Qed.

Lemma keeps_raise {A} (I : EDR.t T -> Prop) e :
  keeps I (raise e : M (EDR.Machine T Data) A).
Proof. by intros st HI. Qed.

Lemma keeps_for_each {A} (I : EDR.t T -> Prop) (l : list A)
    (body : A -> M (EDR.Machine T Data) unit) :
  (forall a, keeps I (body a)) -> keeps I (for_each l body).
Proof.
  intros Hbody. induction l as [|a l IH]; [apply keeps_ret|].
  rewrite for_each_cons. apply keeps_bind; [apply Hbody | by intros _].
Qed.

Lemma keeps_clear_event :
  keeps (T := T) (Data := Data) consistent EDR.clear_event.
Proof.
  intros st HI. unfold EDR.clear_event, EDR.has_triggered.
  unfold mbind at 1. unfold M_bind, gets.
  destruct (EDR.triggered (EDR.edr st)) eqn:Ht; cbn [negb]; [|done].
  unfold mbind, M_bind, EDR.on_world, EDR.on_edr, zoom, print, modify, gets.
  cbn [fst snd EDR.edr EDR.set_world EDR.set_edr].
  match goal with |- context [for_each ?l ?b ?x] =>
    assert (Hloop : keeps (fun e : EDR.t T => e = EDR.edr st) (for_each l b))
      by (apply keeps_for_each; intros r; apply keeps_on_sensor);
    specialize (Hloop x eq_refl); destruct (for_each l b x) as [[[]|e] st1]
  end; cbn in Hloop |- *; [|by rewrite Hloop].
  unfold consistent. by cbn.
Qed.

Lemma keeps_on_event_trigger (now : T) (reason : string) :
  keeps (Data := Data) consistent (EDR.on_event_trigger now reason).
Proof.
  intros st HI. unfold EDR.on_event_trigger, EDR.has_triggered.
  unfold mbind at 1. unfold M_bind, gets.
  destruct (EDR.triggered (EDR.edr st)) eqn:Ht; [done|].
  unfold mbind at 1 2 3 4 5. unfold M_bind, EDR.on_world, EDR.on_edr, zoom,
    print, modify, gets.
  cbn [fst snd EDR.edr EDR.set_world EDR.set_edr EDR.sensors
       EDR.set_triggered EDR.set_event_timestamp EDR.set_reason].
  match goal with |- context [for_each ?l ?b ?x] =>
    assert (Hloop : keeps (fun e : EDR.t T => EDR.triggered e = true /\
                             is_Some (EDR.event_timestamp e)) (for_each l b));
    [| specialize (Hloop x); destruct (for_each l b x) as [res st1] ]
  end.
  { apply keeps_for_each. intros r.
    apply keeps_bind; [apply keeps_gets|].
    intros [ts|]; [apply keeps_on_sensor | apply keeps_raise]. }
  cbn in Hloop |- *. destruct Hloop as [Ht1 [ts Hts]]; [by eauto|].
  unfold consistent. rewrite Ht1, Hts. split; done.
Qed.

Lemma keeps_save_data (strftime : T -> string) (base_path : string) :
  keeps (Data := Data) consistent (EDR.save_data strftime base_path).
Proof.
  unfold EDR.save_data.
  apply keeps_bind; [apply keeps_gets|]. intros [ts|]; [|apply keeps_raise].
  repeat (apply keeps_bind;
          [first [apply keeps_on_world | apply keeps_gets] | intros ?]).
  apply keeps_bind.
  { apply keeps_for_each. intros r. apply keeps_on_sensor. }
  intros _. apply keeps_bind; [apply keeps_on_world|].
  intros _. apply keeps_clear_event.
Qed.

Lemma reachable_consistent st : reachable st -> consistent (EDR.edr st).
Proof.
  induction 1 as [store w | st st' _ IH Hstep]; [done|].
  destruct Hstep.
  - exact IH.
  - apply keeps_clear_event. exact IH.
  - by apply keeps_clear_event.
  - by apply keeps_on_event_trigger.
  - by apply keeps_save_data.
  - exact IH.
Qed.

(** C9: in every state a recorder made by [EDR()] can be in with
    [triggered] false, [event_timestamp] is [None] and [save_data] raises
    [TypeError] at its first statement: no folder, no file, no line on the
    console, and the recorder and the sensors are as they were. *)
Theorem save_data_untriggered st (strftime : T -> string) (base_path : string) :
  reachable st ->
  EDR.triggered (EDR.edr st) = false ->
  EDR.event_timestamp (EDR.edr st) = None /\
  EDR.save_data strftime base_path st = (Raise TypeError, st).
Proof.
  intros Hreach Ht.
  assert (Hev : EDR.event_timestamp (EDR.edr st) = None).
  { by apply (reachable_consistent st Hreach). }
  split; [done|].
  unfold EDR.save_data, mbind, M_bind, gets. by rewrite Hev.
Qed.

End Recorder.


Lemma save_data_untriggered_witness :
  let st : EDR.Machine Q nat :=
    EDR.mkMachine EDR.__init__ ∅ (mkWorld [] []) in
  EDR.event_timestamp (EDR.edr st) = None /\
  EDR.save_data (fun _ => "1970-01-01-00-00-00") "out" st =
    (Raise TypeError, st).
Proof.
  apply (save_data_untriggered
           (EDR.mkMachine EDR.__init__ ∅ (mkWorld [] []))
           (fun _ => "1970-01-01-00-00-00") "out").
  - apply reachable_init.
  - reflexivity.
Defined.

(** Why the sensors must be distinct objects: a sensor registered twice is
    triggered by the first turn of the loop, and the second turn fails the
    buffer's [assert], leaving the recorder triggered. *)
Example trigger_with_sensor_registered_twice :
  let st : EDR.Machine Q nat :=
    EDR.mkMachine (EDR.mk [0%nat; 0%nat] false None "")
      (<[0%nat := example_sensor "front"]> ∅) (mkWorld [] []) in
  let run := EDR.on_event_trigger 3%Q "manual" st in
  fst run = Raise AssertionError /\
  EDR.triggered (EDR.edr (snd run)) = true /\
  EDR.store (snd run) !! 0%nat = Some (trigger_sensor 3%Q (example_sensor "front")).
Proof. vm_compute. repeat split; reflexivity. Qed.

(** ** Saving an event *)

Section Saving.
Context {T : Type} `{PyNum T} {Data : Type}.
Implicit Types (b : EDRBuffer.t T Data) (s : EDRSensor.t T Data)
  (st : EDR.Machine T Data) (w : World Data) (item : T * Data).

Lemma save_data_item_ok b item (path ext : string) w (ev : T) :
  EDRBuffer.event_timestamp b = Some ev ->
  denied w = [] ->
  EDRBuffer._save_data_item item path ext (b, w) =
    (Ok tt,
     (b, mkWorld
           (log w ++
            [SaveToDisk
               (os_path_join path
                  [EDRBuffer.item_filename (EDRBuffer.sensor_id b) (fst item)
                     (psub (fst item) ev) ext])
               (snd item)]) [])).
Proof.
  intros Hev Hw.
  unfold EDRBuffer._save_data_item, mbind, M_bind, gets, io, zoom.
  cbn [fst snd]. rewrite Hev. cbn [fst snd].
  unfold save_to_disk, guarded, is_denied. rewrite Hw. cbn [existsb].
  unfold emit. by rewrite Hw.
Qed.

(** A loop that saves the items a test keeps. *)
Lemma save_items_ok b (keep : T * Data -> bool)
    (file : T * Data -> Effect Data)
    (body : T * Data -> M (EDRBuffer.t T Data * World Data) unit) :
  (forall item w,
     denied w = [] ->
     body item (b, w) =
       (Ok tt,
        (b, mkWorld (log w ++ if keep item then [file item] else []) []))) ->
  forall (l : list (T * Data)) w,
    denied w = [] ->
    for_each l body (b, w) =
      (Ok tt,
       (b, mkWorld
             (log w ++ map file (filter (fun item => keep item = true) l))
             [])).
Proof.
  intros Hbody l. induction l as [|item l IH]; intros w Hw.
  - cbn. rewrite app_nil_r, <- Hw. by destruct w.
  - rewrite for_each_cons. erewrite bind_ok by (by apply Hbody).
    rewrite IH by done. cbn [log]. rewrite filter_cons.
    destruct (keep item); cbn.
    + rewrite decide_True by done. cbn. by rewrite <- app_assoc.
    + rewrite decide_False by done. by rewrite app_nil_r.
Qed.


Lemma makedirs_ok (path : string) w :
  denied w = [] ->
  makedirs path w = (Ok tt, mkWorld (log w ++ [MakeDirs path]) []).
Proof.
  intros Hw. unfold makedirs, guarded, is_denied, emit. by rewrite Hw.
Qed.



(** [EDRBuffer.save_data] on a triggered buffer, with a disk that takes
    everything. *)
Lemma buffer_save_ok b (base_path ext : string) w (ev start stop : T) :
  EDRBuffer.event_timestamp b = Some ev ->
  EDRBuffer.start_timestamp b = Some start ->
  EDRBuffer.end_timestamp b = Some stop ->
  denied w = [] ->
  let folder :=
    os_path_join base_path [EDRBuffer.sensor_type b; EDRBuffer.sensor_id b] in
  EDRBuffer.save_data base_path ext (b, w) =
    (Ok tt,
     (EDRBuffer.set_saving false b,
      mkWorld
        (log w ++
         MakeDirs folder ::
         map (fun item =>
                SaveToDisk
                  (os_path_join folder
                     [EDRBuffer.item_filename (EDRBuffer.sensor_id b)
                        (fst item) (psub (fst item) ev) ext])
                  (snd item))
             (window_items b))
        [])).
Proof.
  intros Hev Hstart Hstop Hw folder.
  set (file := fun item : T * Data =>
         SaveToDisk
           (os_path_join folder
              [EDRBuffer.item_filename (EDRBuffer.sensor_id b)
                 (fst item) (psub (fst item) ev) ext])
           (snd item)).
  set (b1 := EDRBuffer.set_saving true b).
  unfold EDRBuffer.save_data.
  erewrite bind_ok by reflexivity.
  erewrite bind_ok by reflexivity.
  erewrite bind_ok by reflexivity.
  erewrite bind_ok
    by (unfold io, zoom; cbn [fst snd]; by rewrite makedirs_ok).
  erewrite bind_ok by reflexivity.
  cbn [fst snd]. fold b1. fold folder.
  erewrite bind_ok.
  2:{ apply (save_items_ok b1 (fun item => pge (fst item) start) file);
        [|done].
      intros item w' Hw'. unfold mbind, M_bind, gets. cbn [fst].
      replace (EDRBuffer.start_timestamp b1) with (Some start) by done.
      destruct (pge (fst item) start).
      - by apply (save_data_item_ok b1 item folder ext w' ev).
      - cbn. rewrite app_nil_r, <- Hw'. by destruct w'. }
  erewrite bind_ok by reflexivity.
  cbn [fst snd].
  erewrite bind_ok.
  2:{ apply (save_items_ok b1 (fun item => ple (fst item) stop) file);
        [|done].
      intros item w' Hw'. unfold mbind, M_bind, gets. cbn [fst].
      replace (EDRBuffer.end_timestamp b1) with (Some stop) by done.
      destruct (ple (fst item) stop).
      - by apply (save_data_item_ok b1 item folder ext w' ev).
      - cbn. rewrite app_nil_r, <- Hw'. by destruct w'. }
  unfold on_self, zoom, modify. cbn [fst snd log].
  unfold window_items. rewrite Hstart, Hstop, map_app.
  f_equal. f_equal. f_equal.
  rewrite <- !app_assoc. done.
Qed.






End Saving.


(** What that call leaves on the console and on the disk. *)
Example save_data_example_log :
  let run := EDR.save_data (fun _ => "2022-03-01-12-00-00") "out"
               example_triggered in
  fst run = Ok tt /\
  log (EDR.world (snd run)) =
    [MakeDirs "out/2022-03-01-12-00-00";
     Print "Saving EDR data to: out/2022-03-01-12-00-00";
     WriteFile "out/2022-03-01-12-00-00/reason.txt" "manual";
     Print "Saving EDRCamera data for front";
     MakeDirs "out/2022-03-01-12-00-00/images/front";
     SaveToDisk
       "out/2022-03-01-12-00-00/images/front/front_         2.50000000_-0.50000000.png"
       25%nat;
     SaveToDisk
       "out/2022-03-01-12-00-00/images/front/front_         3.50000000_+0.50000000.png"
       35%nat;
     Print "Saving EDRCamera data for rear";
     MakeDirs "out/2022-03-01-12-00-00/images/rear";
     SaveToDisk
       "out/2022-03-01-12-00-00/images/rear/rear_         2.50000000_-0.50000000.png"
       25%nat;
     SaveToDisk
       "out/2022-03-01-12-00-00/images/rear/rear_         3.50000000_+0.50000000.png"
       35%nat;
     Print "EDR data saved";
     Print "Resetting EDR"].
Proof. vm_compute. split; reflexivity. Qed.

(** ** The separating-axis test *)

Section Edges.
Context {T : Type} `{PyNum T}.



End Edges.

Section SeparatingAxis.
Implicit Types (poly : list (Q * Q)) (axis : Q * Q) (l : list Q).

Lemma fold_min_spec l (x : Q) :
  let m := fold_left (fun m y => if Qlt_bool y m then y else m) l x in
  In m (x :: l) /\ forall y, In y (x :: l) -> (m <= y)%Q.
Proof.
  revert x. induction l as [|a l IH]; intros x.
  - cbn. split; [by left|]. intros y [<-|[]]. lra.
  - cbn [fold_left].
    destruct (IH (if Qlt_bool a x then a else x)) as [Hin Hle].
    split.
    + destruct Hin as [Hm | Hm]; [|by right; right].
      rewrite <- Hm. destruct (Qlt_bool a x); [right; by left | by left].
    + intros y Hy.
      assert (Hstep : ((if Qlt_bool a x then a else x) <= x)%Q /\
                      ((if Qlt_bool a x then a else x) <= a)%Q).
      { destruct (Qlt_bool a x) eqn:E.
        - apply Qlt_bool_iff in E. split; lra.
        - apply Qlt_bool_false in E. split; lra. }
      pose proof (Hle _ (or_introl eq_refl)) as Hm.
      destruct Hy as [<- | [<- | Hy]]; [lra | lra |].
      apply Hle. by right.
Qed.

Lemma fold_max_spec l (x : Q) :
  let m := fold_left (fun m y => if pgt y m then y else m) l x in
  In m (x :: l) /\ forall y, In y (x :: l) -> (y <= m)%Q.
Proof.
  revert x. induction l as [|a l IH]; intros x.
  - cbn. split; [by left|]. intros y [<-|[]]. lra.
  - cbn [fold_left].
    destruct (IH (if pgt a x then a else x)) as [Hin Hle].
    split.
    + destruct Hin as [Hm | Hm]; [|by right; right].
      rewrite <- Hm. destruct (pgt a x); [right; by left | by left].
    + intros y Hy.
      assert (Hstep : (x <= (if pgt a x then a else x))%Q /\
                      (a <= (if pgt a x then a else x))%Q).
      { unfold pgt. cbn. destruct (Qlt_bool x a) eqn:E.
        - apply Qlt_bool_iff in E. split; lra.
        - apply Qlt_bool_false in E. split; lra. }
      pose proof (Hle _ (or_introl eq_refl)) as Hm.
      destruct Hy as [<- | [<- | Hy]]; [lra | lra |].
      apply Hle. by right.
Qed.

(** The projection of a polygon with a vertex: the least and the greatest
    of its dot products with the axis. *)
Lemma project_spec poly axis :
  poly <> [] ->
  exists lo hi,
    SAT.project poly axis = Ok (lo, hi) /\
    (exists u, In u poly /\ SAT.dot_product u axis = lo) /\
    (exists u, In u poly /\ SAT.dot_product u axis = hi) /\
    forall u, In u poly ->
      (lo <= SAT.dot_product u axis <= hi)%Q.
Proof.
  destruct poly as [|p poly]; [done|]. intros _.
  unfold SAT.project. cbn [map SAT.py_min SAT.py_max mbind Res_bind mret Res_ret].
  set (dots := map (fun point => SAT.dot_product point axis) poly).
  destruct (fold_min_spec dots (SAT.dot_product p axis)) as [Hmin Hlo].
  destruct (fold_max_spec dots (SAT.dot_product p axis)) as [Hmax Hhi].
  do 2 eexists. split; [reflexivity|].
  change (SAT.dot_product p axis :: dots)
    with (map (fun point => SAT.dot_product point axis) (p :: poly)) in *.
  split; [|split].
  - apply in_map_iff in Hmin as (u & Hu & Hin). eauto.
  - apply in_map_iff in Hmax as (u & Hu & Hin). eauto.
  - intros u Hu. split; [apply Hlo | apply Hhi];
      by apply (in_map (fun point => SAT.dot_product point axis)).
Qed.

(** Two ranges overlap when neither lies strictly beyond the other. *)
Lemma overlap_spec (lo1 hi1 lo2 hi2 : Q) :
  (lo1 <= hi1)%Q -> (lo2 <= hi2)%Q ->
  exists o,
    SAT.overlap (lo1, hi1) (lo2, hi2) = Ok o /\
    (o = false <-> (hi2 < lo1)%Q \/ (hi1 < lo2)%Q).
Proof.
  intros H1 H2. unfold SAT.overlap.
  cbn [fst snd SAT.py_min SAT.py_max fold_left mbind Res_bind mret Res_ret].
  unfold pgt. cbn [plt ple QNum].
  destruct (Qlt_bool hi1 lo1) eqn:E1;
    [apply Qlt_bool_iff in E1; lra | apply Qlt_bool_false in E1].
  destruct (Qlt_bool hi2 lo2) eqn:E2;
    [apply Qlt_bool_iff in E2; lra | apply Qlt_bool_false in E2].
  destruct (Qlt_bool lo2 hi2) eqn:E3;
    [apply Qlt_bool_iff in E3 | apply Qlt_bool_false in E3];
  (destruct (Qlt_bool lo1 hi1) eqn:E4;
    [apply Qlt_bool_iff in E4 | apply Qlt_bool_false in E4]);
  match goal with |- context [if Qle_bool ?a ?b then _ else _] =>
    destruct (Qle_bool a b) eqn:E5;
      [apply Qle_bool_iff in E5 | apply Qle_bool_false in E5]
  end;
  eexists; (split; [reflexivity|]);
  try match goal with |- context [Qle_bool ?a ?b] =>
    destruct (Qle_bool a b) eqn:E6;
      [apply Qle_bool_iff in E6 | apply Qle_bool_false in E6]
  end;
  split; first [ done | intros _; lra | intros [?|?]; lra | intros; lra ].
Qed.


(** One turn of the loop of [has_collided]: the ranges of the two polygons
    on [axis] overlap unless the axis separates them. *)
Lemma axis_overlap_spec poly1 poly2 axis :
  poly1 <> [] -> poly2 <> [] ->
  exists r1 r2 o,
    SAT.project poly1 axis = Ok r1 /\
    SAT.project poly2 axis = Ok r2 /\
    SAT.overlap r1 r2 = Ok o /\
    (o = false <-> separated_on axis poly1 poly2).
Proof.
  intros Hne1 Hne2.
  destruct (project_spec poly1 axis Hne1)
    as (lo1 & hi1 & Hp1 & (ulo & Hulo & <-) & (uhi & Huhi & <-) & Hr1).
  destruct (project_spec poly2 axis Hne2)
    as (lo2 & hi2 & Hp2 & (vlo & Hvlo & <-) & (vhi & Hvhi & <-) & Hr2).
  destruct (overlap_spec (SAT.dot_product ulo axis) (SAT.dot_product uhi axis)
              (SAT.dot_product vlo axis) (SAT.dot_product vhi axis))
    as (o & Ho & Hsep).
  { apply (Hr1 uhi Huhi). }
  { apply (Hr2 vhi Hvhi). }
  do 3 eexists. split; [exact Hp1|]. split; [exact Hp2|]. split; [exact Ho|].
  rewrite Hsep. unfold separated_on. split.
  - intros [Hlt | Hlt]; [left | right]; intros u v Hu Hv;
      pose proof (Hr1 u Hu); pose proof (Hr2 v Hv); lra.
  - intros [Hall | Hall]; [left | right].
    + apply (Hall ulo vhi Hulo Hvhi).
    + apply (Hall uhi vlo Huhi Hvlo).
Qed.

Lemma has_collided_loop_cons poly1 poly2 axis (axes : list (Q * Q)) o :
  (exists r1 r2, SAT.project poly1 axis = Ok r1 /\
                 SAT.project poly2 axis = Ok r2 /\
                 SAT.overlap r1 r2 = Ok o) ->
  SAT.has_collided_loop poly1 poly2 (axis :: axes) =
    if o then SAT.has_collided_loop poly1 poly2 axes else Ok false.
Proof.
  intros (r1 & r2 & Hp1 & Hp2 & Ho).
  cbn [SAT.has_collided_loop]. rewrite Hp1. cbn [mbind Res_bind].
  rewrite Hp2. cbn [mbind Res_bind]. rewrite Ho. cbn [mbind Res_bind].
  by destruct o.
Qed.

(** The loop returns [False] exactly when one of its axes separates the
    polygons. *)
Lemma has_collided_loop_spec poly1 poly2 (axes : list (Q * Q)) :
  poly1 <> [] -> poly2 <> [] ->
  exists b,
    SAT.has_collided_loop poly1 poly2 axes = Ok b /\
    (b = false <->
       exists axis, In axis axes /\ separated_on axis poly1 poly2).
Proof.
  intros Hne1 Hne2. induction axes as [|axis axes IH].
  - exists true. split; [done|]. split; [done | by intros (? & [] & _)].
  - destruct (axis_overlap_spec poly1 poly2 axis Hne1 Hne2)
      as (r1 & r2 & o & Hp1 & Hp2 & Ho & Hsep).
    rewrite (has_collided_loop_cons poly1 poly2 axis axes o) by eauto.
    destruct o.
    + destruct IH as (b & Hrun & Hb). exists b. split; [done|].
      rewrite Hb. split.
      * intros (a & Ha & Hs). exists a. split; [by right | done].
      * intros (a & [<- | Ha] & Hs); [|by eauto].
        by apply Hsep in Hs.
    + exists false. split; [done|]. split; [|done].
      intros _. exists axis. split; [by left | by apply Hsep].
Qed.



End SeparatingAxis.


(** Polygons without a vertex: [min] of nothing raises, unless there is no
    axis to try at all. *)
Example has_collided_empty :
  SAT.has_collided (T := Q) [] [] = Ok true /\
  SAT.has_collided [] (unit_square 0) = Raise ValueError /\
  SAT.has_collided (unit_square 0) [] = Raise ValueError.
Proof. repeat split; reflexivity. Qed.

(** ** Histories of a buffer *)

Section Frames.
Context {S W : Type}.

Lemma frames_bind {A B} (m : M (S * W) A) (f : A -> M (S * W) B) :
  frames m -> (forall a, frames (f a)) -> frames (m ≫= f).
Proof.
  intros Hm Hf s. unfold mbind, M_bind.
  specialize (Hm s). destruct (m s) as [[a|e] s1]; cbn in *; [|done].
  by rewrite Hf.
Qed.

Lemma frames_gets {A} (f : S * W -> A) : frames (gets f).
Proof. by intros s. Qed.

Lemma frames_ret {A} (a : A) : frames (mret a : M (S * W) A).
Proof. by intros s. Qed.

Lemma frames_raise {A} e : frames (raise e : M (S * W) A).
Proof. by intros s. Qed.

Lemma frames_io {A} (m : M W A) : frames (io m : M (S * W) A).
Proof. intros s. unfold io, zoom. by destruct (m (snd s)). Qed.

Lemma frames_for_each {A} (l : list A) (body : A -> M (S * W) unit) :
  (forall a, frames (body a)) -> frames (for_each l body).
Proof.
  intros Hbody. induction l as [|a l IH]; [apply frames_ret|].
  rewrite for_each_cons. apply frames_bind; [apply Hbody | by intros _].
Qed.

End Frames.

Section BufferHistory.
Context {T : Type} `{PyNum T} {Data : Type}.
Implicit Types (b c : EDRBuffer.t T Data) (w : World Data).

Lemma init_new (stype sid : string) (p post r : T) b :
  EDRBuffer.__init__ stype sid p post r = Ok b ->
  exists (cap : nat) (dt : T),
    b = EDRBuffer.mk stype sid p post r dt
          (deque.mk [] (Some cap)) (deque.mk [] None)
          None None None None false.
Proof.
  unfold EDRBuffer.__init__.
  destruct (pint (pmul p r)) as [n|]; [|done].
  cbn. destruct (n <? 0)%Z; cbn; [done|].
  intros [= <-]. by do 2 eexists.
Qed.

Lemma frames_save_data_item (item : T * Data) (path ext : string) :
  frames (EDRBuffer._save_data_item item path ext).
Proof.
  unfold EDRBuffer._save_data_item.
  apply frames_bind; [apply frames_gets|]. intros [ev|]; [|apply frames_raise].
  apply frames_bind; [apply frames_gets|]. intros sid. apply frames_io.
Qed.

Lemma save_step {A B} b (m : M (EDRBuffer.t T Data * World Data) A)
    (f : A -> M (EDRBuffer.t T Data * World Data) B) s :
  frames m ->
  fst s = EDRBuffer.set_saving true b ->
  (forall a s', fst s' = EDRBuffer.set_saving true b ->
     fst (snd (f a s')) = EDRBuffer.set_saving (saving_after (fst (f a s'))) b) ->
  fst (snd ((m ≫= f) s)) =
    EDRBuffer.set_saving (saving_after (fst ((m ≫= f) s))) b.
Proof.
  intros Hm Hs Hf. unfold mbind, M_bind.
  specialize (Hm s). destruct (m s) as [[a|e] s1]; cbn in *.
  - apply Hf. by rewrite Hm.
  - by rewrite Hm.
Qed.

(** [save_data] and the buffer: only [saving] changes. *)
Lemma save_data_buffer b w (base_path ext : string) :
  fst (snd (EDRBuffer.save_data base_path ext (b, w))) =
    EDRBuffer.set_saving
      (saving_after (fst (EDRBuffer.save_data base_path ext (b, w)))) b.
Proof.
  unfold EDRBuffer.save_data.
  erewrite bind_ok by reflexivity.
  repeat (apply save_step;
    [ first [ apply frames_gets | apply frames_io
            | apply frames_for_each; intros item;
              apply frames_bind; [apply frames_gets|];
              intros [x|]; [|apply frames_raise];
              case_match; [apply frames_save_data_item | apply frames_ret] ]
    | done | intros ? ? ? ]).
  unfold on_self, zoom, modify. cbn.
  match goal with Hs : fst _ = _ |- _ => rewrite Hs end.
  by destruct b.
Qed.

(** X2: whatever the buffer, the arguments and the disk, [save_data]
    changes nothing in the buffer but [saving]: the flag is cleared when
    [save_data] returns and set when it raised, whatever the exception;
    the samples, the window and the rate limit are as before. *)
Theorem save_data_changes_only_saving b w (base_path ext : string) :
  fst (snd (EDRBuffer.save_data base_path ext (b, w))) =
    EDRBuffer.set_saving
      (saving_after (fst (EDRBuffer.save_data base_path ext (b, w)))) b.
Proof. apply save_data_buffer. Qed.

(** *** What no method changes *)

Lemma step_same_setup b c : buffer_step b c -> same_setup b c.
Proof.
  intros [b1 c1 Hcall | b1 base_path ext w].
  - destruct Hcall as [b1 t d | b1 ts | b1].
    + unfold EDRBuffer.on_data.
      repeat case_match; repeat split; cbn; try done; by rewrite append_maxlen.
    + unfold EDRBuffer.on_event_trigger. by case_match.
    + done.
  - by rewrite save_data_buffer.
Qed.

Lemma after_same_setup b c : after buffer_step b c -> same_setup b c.
Proof.
  induction 1 as [|c1 c2 _ IH Hstep]; [done|].
  apply step_same_setup in Hstep.
  destruct IH as (?&?&?&?&?&?&?&?), Hstep as (?&?&?&?&?&?&?&?).
  repeat split; congruence.
Qed.

(** X3: [clear] undoes everything the four methods may have done to a
    buffer since its construction, but for [saving]: the queues are empty
    with their bounds, the window and the rate limit are unset, and the
    configuration is the one [__init__] was given.  A buffer that is not
    marked as saving is, after [clear], the buffer [__init__] made. *)
Theorem clear_returns_to_construction (stype sid : string) (p post r : T) b0 b :
  EDRBuffer.__init__ stype sid p post r = Ok b0 ->
  after buffer_step b0 b ->
  EDRBuffer.clear b = EDRBuffer.set_saving (EDRBuffer.saving b) b0 /\
  (EDRBuffer.saving b = false -> EDRBuffer.clear b = b0).
Proof.
  intros Hi Hb. apply init_new in Hi as (cap & dt & ->).
  apply after_same_setup in Hb.
  assert (Hclear : EDRBuffer.clear b = EDRBuffer.set_saving (EDRBuffer.saving b)
            (EDRBuffer.mk stype sid p post r dt
               (deque.mk [] (Some cap)) (deque.mk [] None)
               None None None None false)).
  { destruct Hb as (?&?&?&?&?&?&?&?).
    destruct b as [? ? ? ? ? ? [? ?] [? ?] ? ? ? ? ?]. cbn in *. by subst. }
  split; [done|]. intros Hs. by rewrite Hclear, Hs.
Qed.

(** X4: the ring never holds more samples than its bound, and the bound
    never changes, whatever is called on the buffer and whatever the
    numbers are (rationals or binary64). *)
Theorem ring_never_over_capacity b0 b (cap : nat) :
  deque.maxlen (EDRBuffer.preevent_buffer b0) = Some cap ->
  (length (deque.items (EDRBuffer.preevent_buffer b0)) <= cap)%nat ->
  after buffer_step b0 b ->
  deque.maxlen (EDRBuffer.preevent_buffer b) = Some cap /\
  (length (deque.items (EDRBuffer.preevent_buffer b)) <= cap)%nat.
Proof.
  intros Hm Hlen Hb. induction Hb as [|c1 c2 _ [IHm IHlen] Hstep]; [done|].
  split.
  { apply step_same_setup in Hstep. destruct Hstep as (_&_&_&_&_&_&->&_). done. }
  destruct Hstep as [c1 c2 Hcall | c1 base_path ext w].
  - destruct Hcall as [c1 t d | c1 ts | c1].
    + unfold EDRBuffer.on_data. repeat case_match; cbn; try done.
      unfold deque.append. rewrite IHm.
      destruct (Nat.ltb_spec cap (length (deque.items (EDRBuffer.preevent_buffer c1) ++ [(t, d)])))
        as [Hlt | Hle]; cbn; [|done].
      rewrite length_app in Hlt. cbn in Hlt.
      destruct (deque.items (EDRBuffer.preevent_buffer c1) ++ [(t, d)]) eqn:E;
        [cbn; lia|].
      apply (f_equal length) in E. rewrite length_app in E. cbn in E |- *. lia.
    + unfold EDRBuffer.on_event_trigger. by case_match.
    + cbn. lia.
  - by rewrite save_data_buffer.
Qed.

(** X5: once [save_data] has raised, no call of [on_data],
    [on_event_trigger] or [clear] clears [saving]: every later sample is
    dropped, also after [clear]. *)
Theorem raised_save_locks_buffer b w (base_path ext : string) e c :
  fst (EDRBuffer.save_data base_path ext (b, w)) = Raise e ->
  after buffer_call (fst (snd (EDRBuffer.save_data base_path ext (b, w)))) c ->
  EDRBuffer.saving c = true /\
  forall t d, EDRBuffer.on_data t d c = c.
Proof.
  intros Hraise Hc.
  assert (Hs : EDRBuffer.saving c = true).
  { induction Hc as [|c1 c2 _ IH Hcall].
    - by rewrite save_data_buffer, Hraise.
    - destruct Hcall as [c1 t d | c1 ts | c1].
      + unfold EDRBuffer.on_data. by rewrite IH.
      + unfold EDRBuffer.on_event_trigger. by case_match.
      + done. }
  split; [done|]. intros t d. unfold EDRBuffer.on_data. by rewrite Hs.
Qed.

(** X6: a trigger locks the ring.  On a triggered buffer no run of
    [on_data] calls changes the ring or the window. *)
Theorem trigger_freezes_ring b (ev : T) (samples : list (T * Data)) :
  EDRBuffer.event_timestamp b = Some ev ->
  let c := on_data_seq samples b in
  EDRBuffer.preevent_buffer c = EDRBuffer.preevent_buffer b /\
  EDRBuffer.event_timestamp c = Some ev /\
  EDRBuffer.start_timestamp c = EDRBuffer.start_timestamp b /\
  EDRBuffer.end_timestamp c = EDRBuffer.end_timestamp b.
Proof.
  revert b. induction samples as [|s l IH]; intros b Hev; [done|].
  cbn zeta. change (on_data_seq (s :: l) b)
    with (on_data_seq l (EDRBuffer.on_data (fst s) (snd s) b)).
  assert (Hstep : EDRBuffer.preevent_buffer (EDRBuffer.on_data (fst s) (snd s) b) =
                    EDRBuffer.preevent_buffer b /\
                  EDRBuffer.event_timestamp (EDRBuffer.on_data (fst s) (snd s) b) =
                    Some ev /\
                  EDRBuffer.start_timestamp (EDRBuffer.on_data (fst s) (snd s) b) =
                    EDRBuffer.start_timestamp b /\
                  EDRBuffer.end_timestamp (EDRBuffer.on_data (fst s) (snd s) b) =
                    EDRBuffer.end_timestamp b).
  { unfold EDRBuffer.on_data. repeat case_match; cbn in *; try done; congruence. }
  destruct Hstep as (Hr & Hev' & Hst & Hen).
  destruct (IH _ Hev') as (-> & -> & -> & ->). done.
Qed.

End BufferHistory.

(** *** The order of the stored samples *)

Lemma spaced_snoc (dt : Q) (l : list Q) (t : Q) :
  spaced dt l ->
  (forall x, last l = Some x -> (dt <= t - x)%Q) ->
  spaced dt (l ++ [t]).
Proof.
  induction l as [|a l IH]; intros Hsp Hlast; [done|].
  destruct l as [|a' l'].
  - cbn. split; [by apply Hlast | done].
  - cbn in Hsp |- *. destruct Hsp as [Hgap Hsp]. split; [done|].
    apply IH; [done|]. intros x Hx. by apply Hlast.
Qed.

Lemma spaced_tail (dt : Q) (l : list Q) : spaced dt l -> spaced dt (tail l).
Proof.
  destruct l as [|a [|a' l']]; cbn; try done. by intros [_ ?].
Qed.

Lemma map_tail {A B} (f : A -> B) (l : list A) :
  map f (tail l) = tail (map f l).
Proof. by destruct l. Qed.

Lemma append_items {A} (x : A) (q : deque.t A) :
  deque.items (deque.append x q) = deque.items q ++ [x] \/
  deque.items (deque.append x q) = tail (deque.items q ++ [x]).
Proof. unfold deque.append. repeat case_match; cbn; auto. Qed.

Lemma last_tail {A} (l : list A) (x : A) :
  last (tail l) = Some x -> last l = Some x.
Proof. destruct l as [|a [|a' l']]; cbn; done. Qed.

Section BufferOrder.
Context {Data : Type}.
Implicit Types (b c : EDRBuffer.t Q Data).

Lemma init_rate_limited (stype sid : string) (p post r : Q) b :
  EDRBuffer.__init__ stype sid p post r = Ok b -> rate_limited b /\ windowed b.
Proof.
  intros Hi. apply init_new in Hi as (cap & dt & ->).
  repeat split; cbn; try done.
Qed.

Lemma on_data_rate_limited b t d :
  rate_limited b -> rate_limited (EDRBuffer.on_data t d b).
Proof.
  intros (Hsp & Hlast & Hpost & Hmax).
  unfold EDRBuffer.on_data.
  destruct (EDRBuffer.saving b); [done|].
  destruct (EDRBuffer.event_storage_finished t b); [done|].
  destruct (EDRBuffer.too_soon t b) eqn:Hsoon; [done|].
  assert (Hgap : forall x, last (map fst (stored b)) = Some x ->
            (EDRBuffer.sample_interval b <= t - x)%Q).
  { intros x Hx. destruct (Hlast x Hx) as (n & Hn & Hle).
    unfold EDRBuffer.too_soon in Hsoon. rewrite Hn in Hsoon.
    apply Qlt_bool_false in Hsoon. lra. }
  pose proof (spaced_snoc _ _ t Hsp Hgap) as Hsnoc.
  unfold rate_limited, stored in *. cbn.
  destruct (EDRBuffer.event_timestamp b) eqn:Hev; cbn.
  - assert (Hitems : deque.items (deque.append (t, d) (EDRBuffer.postevent_buffer b)) =
                     deque.items (EDRBuffer.postevent_buffer b) ++ [(t, d)])
      by (by apply append_unbounded).
    rewrite Hev, Hitems, app_assoc, map_app. cbn [map fst].
    split; [done|]. split.
    + intros x. rewrite last_snoc. intros [= <-]. eexists. split; [done|]. lra.
    + split; [done|]. by rewrite append_maxlen.
  - rewrite Hev. rewrite (Hpost eq_refl), !app_nil_r in *.
    assert (Hts : map fst (deque.items (deque.append (t, d) (EDRBuffer.preevent_buffer b))) =
                    map fst (deque.items (EDRBuffer.preevent_buffer b)) ++ [t] \/
                  map fst (deque.items (deque.append (t, d) (EDRBuffer.preevent_buffer b))) =
                    tail (map fst (deque.items (EDRBuffer.preevent_buffer b)) ++ [t])).
    { destruct (append_items (t, d) (EDRBuffer.preevent_buffer b)) as [-> | ->].
      - left. by rewrite map_app.
      - right. by rewrite map_tail, map_app. }
    split; [|split; [|done]].
    + destruct Hts as [-> | ->]; [done | by apply spaced_tail].
    + intros x Hx. eexists. split; [done|].
      assert (Hx' : last (map fst (deque.items (EDRBuffer.preevent_buffer b)) ++ [t]) = Some x).
      { destruct Hts as [Hts | Hts]; rewrite Hts in Hx; [done | by apply last_tail]. }
      rewrite last_snoc in Hx'. injection Hx' as <-. lra.
Qed.

Lemma on_data_windowed b t d : windowed b -> windowed (EDRBuffer.on_data t d b).
Proof.
  intros (Hpost & Hmax & Hwin).
  unfold EDRBuffer.on_data.
  destruct (EDRBuffer.saving b); [done|].
  destruct (EDRBuffer.event_storage_finished t b) eqn:Hfin; [done|].
  destruct (EDRBuffer.too_soon t b); [done|].
  unfold windowed. cbn.
  destruct (EDRBuffer.event_timestamp b) eqn:Hev; cbn; [|by rewrite Hev].
  rewrite Hev. split; [done|]. split; [by rewrite append_maxlen|].
  intros stop Hstop. rewrite append_unbounded by done.
  apply Forall_app. split; [by apply Hwin|].
  constructor; [|done]. cbn.
  unfold EDRBuffer.event_storage_finished in Hfin. rewrite Hstop in Hfin.
  by apply Qlt_bool_false in Hfin.
Qed.

Lemma step_rate_limited b c :
  rate_limited b /\ windowed b -> buffer_step b c ->
  rate_limited c /\ windowed c.
Proof.
  intros Hinv Hstep. destruct Hstep as [b1 c1 Hcall | b1 base_path ext w].
  - destruct Hcall as [b1 t d | b1 ts | b1]; destruct Hinv as [Hr Hw].
    + split; [by apply on_data_rate_limited | by apply on_data_windowed].
    + unfold EDRBuffer.on_event_trigger.
      destruct (EDRBuffer.event_timestamp b1) eqn:Hev; [done|]. cbn.
      destruct Hr as (Hsp & Hlast & Hpost & Hmax).
      destruct Hw as (_ & _ & Hwin).
      split; [done|]. split; [done|]. split; [done|].
      intros stop _. cbn. by rewrite (Hpost Hev).
    + destruct Hr as (_ & _ & _ & Hmax). repeat split; cbn; done.
  - rewrite save_data_buffer. done.
Qed.

Lemma after_rate_limited (stype sid : string) (p post r : Q) b0 b :
  EDRBuffer.__init__ stype sid p post r = Ok b0 ->
  after buffer_step b0 b ->
  rate_limited b /\ windowed b.
Proof.
  intros Hi Hb. induction Hb as [|c1 c2 _ IH Hstep].
  - by apply (init_rate_limited stype sid p post r).
  - by apply (step_rate_limited c1).
Qed.


(** X8: the post-event queue never holds a sample from after the window:
    the test [item[0] <= self.end_timestamp] of [save_data] keeps every
    post-event sample. *)
Theorem post_samples_in_window (stype sid : string) (p post r : Q) b0 b stop :
  EDRBuffer.__init__ stype sid p post r = Ok b0 ->
  after buffer_step b0 b ->
  EDRBuffer.end_timestamp b = Some stop ->
  Forall (fun item => (fst item <= stop)%Q)
         (deque.items (EDRBuffer.postevent_buffer b)) /\
  filter (fun item => ple (fst item) stop = true)
         (deque.items (EDRBuffer.postevent_buffer b)) =
    deque.items (EDRBuffer.postevent_buffer b).
Proof.
  intros Hi Hb Hstop.
  destruct (after_rate_limited _ _ _ _ _ _ _ Hi Hb) as [_ (_ & _ & Hwin)].
  specialize (Hwin stop Hstop). split; [done|].
  induction Hwin as [|item l Hitem _ IH]; [done|].
  rewrite filter_cons, decide_True; [by rewrite IH|].
  by apply Qle_bool_iff.
Qed.

End BufferOrder.

(** *** Saving a buffer that was never triggered *)

Section SaveUntriggered.
Context {T : Type} `{PyNum T} {Data : Type}.
Implicit Types (b : EDRBuffer.t T Data) (w : World Data).

Lemma makedirs_free (path : string) w :
  is_denied path w = false ->
  makedirs path w = (Ok tt, emit (MakeDirs path) w).
Proof. intros Hw. unfold makedirs, guarded. by rewrite Hw. Qed.

(** X9: [save_data] on a buffer without a window (never triggered, or
    cleared).  The sensor's folder is created in any case.  With no sample
    in the buffer it returns, having written no file; with a sample, the
    first comparison with the missing bound raises [TypeError], and the
    buffer is left marked as saving. *)
Theorem save_data_before_trigger b w (base_path ext : string) :
  EDRBuffer.start_timestamp b = None ->
  EDRBuffer.end_timestamp b = None ->
  is_denied
    (os_path_join base_path [EDRBuffer.sensor_type b; EDRBuffer.sensor_id b])
    w = false ->
  EDRBuffer.save_data base_path ext (b, w) =
    let w' :=
      emit (MakeDirs (os_path_join base_path
                        [EDRBuffer.sensor_type b; EDRBuffer.sensor_id b])) w in
    match stored b with
    | [] => (Ok tt, (EDRBuffer.set_saving false b, w'))
    | _ :: _ => (Raise TypeError, (EDRBuffer.set_saving true b, w'))
    end.
Proof.
  intros Hstart Hend Hden.
  unfold EDRBuffer.save_data.
  erewrite bind_ok by reflexivity.
  erewrite bind_ok by reflexivity.
  erewrite bind_ok by reflexivity.
  erewrite bind_ok
    by (unfold io, zoom; cbn [fst snd EDRBuffer.sensor_type EDRBuffer.sensor_id
                               EDRBuffer.set_saving];
        rewrite makedirs_free by exact Hden; reflexivity).
  erewrite bind_ok by reflexivity.
  cbn [fst snd EDRBuffer.preevent_buffer EDRBuffer.set_saving].
  unfold stored.
  destruct (deque.items (EDRBuffer.preevent_buffer b)) as [|x l].
  - cbn [for_each app].
    erewrite bind_ok by reflexivity.
    erewrite bind_ok by reflexivity.
    cbn [fst snd EDRBuffer.postevent_buffer EDRBuffer.set_saving].
    destruct (deque.items (EDRBuffer.postevent_buffer b)) as [|y l'].
    + cbn [for_each]. erewrite bind_ok by reflexivity.
      unfold on_self, zoom, modify. cbn. by destruct b.
    + apply bind_raise. rewrite for_each_cons. apply bind_raise.
      unfold mbind, M_bind, gets. cbn [fst EDRBuffer.end_timestamp EDRBuffer.set_saving].
      by rewrite Hend.
  - cbn [app]. apply bind_raise. rewrite for_each_cons. apply bind_raise.
    unfold mbind, M_bind, gets. cbn [fst EDRBuffer.start_timestamp EDRBuffer.set_saving].
    by rewrite Hstart.
Qed.

End SaveUntriggered.

(** *** The histories at work *)

Lemma after_on_data_seq {T} `{PyNum T} {Data} (samples : list (T * Data))
    (b0 b : EDRBuffer.t T Data) :
  after buffer_step b0 b -> after buffer_step b0 (on_data_seq samples b).
Proof.
  revert b. induction samples as [|s l IH]; intros b Hb; [done|].
  apply IH. eapply after_step; [exact Hb|].
  apply buffer_step_call, call_on_data.
Qed.

Lemma example_buffer_init :
  EDRBuffer.__init__ "images" "cam" 2%Q 1%Q 10%Q = Ok example_buffer.
Proof. reflexivity. Qed.

Lemma example_history_after : after buffer_step example_buffer example_history.
Proof.
  unfold example_history.
  eapply after_step; [|apply buffer_step_call, call_on_data].
  eapply after_step; [|apply buffer_step_call, call_on_event_trigger].
  eapply after_step; [|apply buffer_step_call, call_on_data].
  apply after_none.
Qed.

Lemma clear_returns_to_construction_witness :
  EDRBuffer.clear example_history =
    EDRBuffer.set_saving (EDRBuffer.saving example_history) example_buffer /\
  (EDRBuffer.saving example_history = false ->
   EDRBuffer.clear example_history = example_buffer).
Proof.
  apply (clear_returns_to_construction "images" "cam" 2%Q 1%Q 10%Q).
  - exact example_buffer_init.
  - exact example_history_after.
Defined.

Lemma ring_never_over_capacity_witness :
  deque.maxlen (EDRBuffer.preevent_buffer
                  (on_data_seq binary64_history example_float_buffer)) =
    Some 20%nat /\
  (length (deque.items
             (EDRBuffer.preevent_buffer
                (on_data_seq binary64_history example_float_buffer))) <= 20)%nat.
Proof.
  apply (ring_never_over_capacity example_float_buffer).
  - reflexivity.
  - cbn. lia.
  - apply after_on_data_seq, after_none.
Defined.

Lemma raised_save_locks_buffer_witness :
  let locked :=
    fst (snd (EDRBuffer.save_data "out" ".png"
                (example_history, example_full_disk))) in
  EDRBuffer.saving (EDRBuffer.clear locked) = true /\
  forall t d, EDRBuffer.on_data t d (EDRBuffer.clear locked) =
              EDRBuffer.clear locked.
Proof.
  apply (raised_save_locks_buffer example_history example_full_disk
           "out" ".png" OSError).
  - reflexivity.
  - eapply after_step; [apply after_none | apply call_clear].
Defined.

Lemma trigger_freezes_ring_witness :
  let b := snd (EDRBuffer.on_event_trigger 3%Q
                  (EDRBuffer.on_data (5 # 2)%Q 25%nat example_buffer)) in
  let c := on_data_seq [((7 # 2)%Q, 35%nat); (4%Q, 40%nat)] b in
  EDRBuffer.preevent_buffer c = EDRBuffer.preevent_buffer b /\
  EDRBuffer.event_timestamp c = Some 3%Q /\
  EDRBuffer.start_timestamp c = EDRBuffer.start_timestamp b /\
  EDRBuffer.end_timestamp c = EDRBuffer.end_timestamp b.
Proof.
  apply (trigger_freezes_ring
           (snd (EDRBuffer.on_event_trigger 3%Q
                   (EDRBuffer.on_data (5 # 2)%Q 25%nat example_buffer)))
           3%Q [((7 # 2)%Q, 35%nat); (4%Q, 40%nat)]).
  reflexivity.
Defined.


Lemma post_samples_in_window_witness :
  Forall (fun item => (fst item <= 4)%Q)
         (deque.items (EDRBuffer.postevent_buffer example_history)) /\
  filter (fun item => ple (fst item) 4%Q = true)
         (deque.items (EDRBuffer.postevent_buffer example_history)) =
    deque.items (EDRBuffer.postevent_buffer example_history).
Proof.
  apply (post_samples_in_window "images" "cam" 2%Q 1%Q 10%Q example_buffer).
  - exact example_buffer_init.
  - exact example_history_after.
  - reflexivity.
Defined.

Lemma save_data_before_trigger_witness :
  EDRBuffer.save_data "out" ".png"
    (EDRBuffer.on_data (5 # 2)%Q 25%nat example_buffer, mkWorld [] []) =
    (Raise TypeError,
     (EDRBuffer.set_saving true
        (EDRBuffer.on_data (5 # 2)%Q 25%nat example_buffer),
      mkWorld [MakeDirs "out/images/cam"] [])).
Proof.
  apply (save_data_before_trigger
           (EDRBuffer.on_data (5 # 2)%Q 25%nat example_buffer) (mkWorld [] [])
           "out" ".png"); reflexivity.
Defined.

(** ** The life cycle of the recorder *)

Section Cycle.
Context {T : Type} `{PyNum T} {Data : Type}.
Implicit Types (st : EDR.Machine T Data) (s : EDRSensor.t T Data)
  (r : EDR.ref) (w : World Data).

(** [on_event_trigger] on a recorder that is ready. *)
Lemma on_event_trigger_armed st (now : T) (reason : string) :
  armed st ->
  exists st',
    EDR.on_event_trigger now reason st = (Ok tt, st') /\
    EDR.edr st' = EDR.mk (EDR.sensors (EDR.edr st)) true (Some now) reason /\
    EDR.world st' =
      emit (Print ("EDR Triggered - " +++ reason +++ "!")) (EDR.world st) /\
    forall r, EDR.store st' !! r =
                if decide (r ∈ EDR.sensors (EDR.edr st))
                then trigger_sensor now <$> EDR.store st !! r
                else EDR.store st !! r.
Proof.
  intros (Ht & Hnd & Hstore).
  destruct (sensors_in_store _ _ _ Hstore) as (ss & Hss).
  set (e := EDR.mk (EDR.sensors (EDR.edr st)) true (Some now) reason).
  set (st1 := EDR.mkMachine e (EDR.store st)
                (emit (Print ("EDR Triggered - " +++ reason +++ "!"))
                   (EDR.world st))).
  destruct (for_each_sensor e (denied (EDR.world st))
              (fun s => EDRBuffer.event_timestamp (EDRSensor.edr_buffer s) = None)
              (trigger_sensor now) (fun _ => [])
              (fun sensor =>
                 ts ← gets (fun st => EDR.event_timestamp (EDR.edr st));
                 match ts with
                 | Some ts => EDR.on_sensor sensor (EDRSensor.on_event_trigger ts)
                 | None => raise TypeError
                 end)) with (l := EDR.sensors (EDR.edr st)) (st := st1) (ss := ss)
    as (st' & Hrun & He & Hw & Hst); try done.
  { intros r st0 s He0 Hdn Hr Hs.
    unfold mbind, M_bind, gets. rewrite He0. cbn [EDR.event_timestamp e].
    unfold EDR.on_sensor. rewrite Hr, sensor_trigger_ok by done.
    cbn [fst snd]. rewrite He0, app_nil_r, <- Hdn. by rewrite world_eta. }
  exists st'. split.
  - unfold EDR.on_event_trigger, EDR.has_triggered, mbind, M_bind, gets.
    rewrite Ht. exact Hrun.
  - split; [done|]. split; [|done].
    rewrite Hw, concat_map_nil, app_nil_r. done.
Qed.

(** [clear_event] on a triggered recorder whose sensors are distinct
    objects. *)
Lemma clear_event_triggered st :
  EDR.triggered (EDR.edr st) = true ->
  NoDup (EDR.sensors (EDR.edr st)) ->
  (forall r, r ∈ EDR.sensors (EDR.edr st) -> is_Some (EDR.store st !! r)) ->
  exists st',
    EDR.clear_event st = (Ok tt, st') /\
    EDR.edr st' = EDR.mk (EDR.sensors (EDR.edr st)) false None "" /\
    EDR.world st' = emit (Print "Resetting EDR") (EDR.world st) /\
    forall r, EDR.store st' !! r =
                if decide (r ∈ EDR.sensors (EDR.edr st))
                then EDRSensor.clear_event <$> EDR.store st !! r
                else EDR.store st !! r.
Proof.
  intros Ht Hnd Hstore.
  destruct (sensors_in_store (fun _ => True) (EDR.store st)
              (EDR.sensors (EDR.edr st))) as (ss & Hss).
  { intros r Hr. destruct (Hstore r Hr) as [s Hs]. eauto. }
  set (st1 := EDR.mkMachine (EDR.edr st) (EDR.store st)
                (emit (Print "Resetting EDR") (EDR.world st))).
  destruct (for_each_sensor (Data := Data) (EDR.edr st) (denied (EDR.world st))
              (fun _ => True) EDRSensor.clear_event (fun _ => [])
              (fun sensor =>
                 EDR.on_sensor sensor (on_self (modify EDRSensor.clear_event))))
    with (l := EDR.sensors (EDR.edr st)) (st := st1) (ss := ss)
    as (st2 & Hrun & He & Hw & Hst); try done.
  { intros r st0 s He0 Hdn Hr _. unfold EDR.on_sensor.
    rewrite Hr. unfold on_self, zoom, modify. cbn [fst snd].
    rewrite He0, app_nil_r, <- Hdn. by rewrite world_eta. }
  unfold EDR.clear_event, EDR.has_triggered.
  erewrite bind_ok by reflexivity. rewrite Ht. cbn [negb].
  erewrite bind_ok by reflexivity.
  erewrite bind_ok by reflexivity.
  change (EDR.on_world (print ["Resetting EDR"]) st).2 with st1.
  erewrite bind_ok by exact Hrun.
  unfold mbind, M_bind, EDR.on_edr, zoom, modify.
  cbn [fst snd EDR.set_edr EDR.edr EDR.store EDR.world].
  eexists. split; [reflexivity|].
  cbn [EDR.world EDR.edr EDR.store EDR.set_edr EDR.set_reason
       EDR.set_triggered EDR.set_event_timestamp EDR.sensors].
  split; [by rewrite He|]. split; [|done].
  rewrite Hw, concat_map_nil, app_nil_r. done.
Qed.

(** X10: [clear_event] on a triggered recorder whose sensors are distinct
    objects prints one line, runs [clear_event] on every registered sensor
    and on no other, and resets [event_timestamp], [triggered] and
    [reason]; the list of sensors stays.  On an idle recorder it does
    nothing at all. *)
Theorem clear_event_resets st :
  (EDR.triggered (EDR.edr st) = false ->
     EDR.clear_event st = (Ok tt, st)) /\
  (EDR.triggered (EDR.edr st) = true ->
   NoDup (EDR.sensors (EDR.edr st)) ->
   (forall r, r ∈ EDR.sensors (EDR.edr st) -> is_Some (EDR.store st !! r)) ->
   exists st',
     EDR.clear_event st = (Ok tt, st') /\
     EDR.edr st' = EDR.mk (EDR.sensors (EDR.edr st)) false None "" /\
     EDR.world st' = emit (Print "Resetting EDR") (EDR.world st) /\
     forall r, EDR.store st' !! r =
                 if decide (r ∈ EDR.sensors (EDR.edr st))
                 then EDRSensor.clear_event <$> EDR.store st !! r
                 else EDR.store st !! r).
Proof.
  split; [|apply clear_event_triggered].
  intros Ht. unfold EDR.clear_event, EDR.has_triggered, mbind, M_bind, gets.
  by rewrite Ht.
Qed.

(** X11: an event and its reset leave the recorder ready for the next
    event.  On a ready recorder (idle, its sensors distinct objects with
    untriggered buffers) [on_event_trigger] returns and leaves it
    triggered; [clear_event] then returns, and the recorder is ready
    again, with the same sensors, each with its buffer cleared. *)
Theorem event_cycle_rearms st (now : T) (reason : string) :
  armed st ->
  exists st1 st2,
    EDR.on_event_trigger now reason st = (Ok tt, st1) /\
    EDR.triggered (EDR.edr st1) = true /\
    EDR.clear_event st1 = (Ok tt, st2) /\
    armed st2 /\
    EDR.edr st2 = EDR.mk (EDR.sensors (EDR.edr st)) false None "" /\
    forall r, EDR.store st2 !! r =
                if decide (r ∈ EDR.sensors (EDR.edr st))
                then (EDRSensor.clear_event ∘ trigger_sensor now) <$>
                       EDR.store st !! r
                else EDR.store st !! r.
Proof.
  intros Harmed. pose proof Harmed as (Ht & Hnd & Hstore).
  destruct (on_event_trigger_armed st now reason Harmed)
    as (st1 & Hrun1 & He1 & Hw1 & Hst1).
  destruct (clear_event_triggered st1) as (st2 & Hrun2 & He2 & Hw2 & Hst2).
  { by rewrite He1. }
  { by rewrite He1. }
  { intros r Hr. rewrite He1 in Hr. cbn in Hr.
    rewrite Hst1, decide_True by done.
    destruct (Hstore r Hr) as (s & -> & _). by eexists. }
  rewrite He1 in He2, Hst2. cbn [EDR.sensors] in He2, Hst2.
  assert (Hstore2 : forall r, EDR.store st2 !! r =
            if decide (r ∈ EDR.sensors (EDR.edr st))
            then (EDRSensor.clear_event ∘ trigger_sensor now) <$>
                   EDR.store st !! r
            else EDR.store st !! r).
  { intros r. rewrite Hst2, Hst1.
    case_decide; [|done]. by rewrite option_fmap_compose. }
  exists st1, st2. split; [done|]. split; [by rewrite He1|].
  split; [done|]. split; [|done].
  unfold armed. rewrite He2. cbn [EDR.triggered EDR.sensors].
  split; [done|]. split; [done|].
  intros r Hr. rewrite Hstore2, decide_True by done.
  destruct (Hstore r Hr) as (s & -> & _). eexists. split; [done|]. done.
Qed.

End Cycle.

(** *** [clear] and the sensors *)

Section Clear.
Context {T : Type} `{PyNum T} {Data : Type}.
Implicit Types (st : EDR.Machine T Data) (s : EDRSensor.t T Data)
  (r : EDR.ref) (w : World Data).





(** What [clear] returns and leaves. *)
Lemma clear_result st :
  EDR.clear st =
    (Ok tt,
     EDR.mkMachine
       (if EDR.triggered (EDR.edr st) then EDR.__init__
        else EDR.set_sensors [] (EDR.edr st))
       (EDR.store st)
       (if EDR.triggered (EDR.edr st)
        then emit (Print "Resetting EDR") (EDR.world st)
        else EDR.world st)).
Proof.
  unfold EDR.clear, EDR.clear_event, EDR.has_triggered.
  unfold mbind, M_bind, EDR.on_edr, EDR.on_world, zoom, modify, gets, print.
  cbn [fst snd EDR.edr EDR.set_edr EDR.set_sensors EDR.triggered].
  destruct st as [[l [|] ts reason] m w]; cbn; reflexivity.
Qed.


(** X13: a sensor that kept its event window through [clear] blocks the
    next event.  If [clear] is called while a sensor's buffer is triggered
    and the same sensor is registered again, the next [on_event_trigger]
    raises [AssertionError] from the buffer, after the recorder has marked
    itself triggered. *)
Theorem readded_sensor_blocks_trigger st r s (ev now : T) (reason : string) :
  EDR.store st !! r = Some s ->
  EDRBuffer.event_timestamp (EDRSensor.edr_buffer s) = Some ev ->
  let st2 := snd (EDR.add_sensor r (snd (EDR.clear st))) in
  exists st3,
    EDR.on_event_trigger now reason st2 = (Raise AssertionError, st3) /\
    EDR.edr st3 = EDR.mk [r] true (Some now) reason /\
    EDR.store st3 !! r = Some s.
Proof.
  intros Hr Hev. rewrite clear_result. cbn [snd].
  unfold EDR.add_sensor, EDR.on_edr, zoom, modify.
  cbn [fst snd EDR.edr EDR.set_edr EDR.store EDR.world].
  set (e1 := if EDR.triggered (EDR.edr st) then EDR.__init__
             else EDR.set_sensors [] (EDR.edr st)).
  assert (He1 : EDR.sensors e1 = [] /\ EDR.triggered e1 = false).
  { subst e1. by destruct (EDR.triggered (EDR.edr st)) eqn:Ht. }
  destruct He1 as [Hl Ht]. cbn zeta.
  unfold EDR.on_event_trigger, EDR.has_triggered.
  erewrite bind_ok by reflexivity.
  cbn [EDR.edr EDR.set_edr EDR.store EDR.world EDR.triggered EDR.set_sensors].
  rewrite Ht, Hl. cbn [app].
  erewrite bind_ok by reflexivity.
  erewrite bind_ok by reflexivity.
  erewrite bind_ok by reflexivity.
  erewrite bind_ok by reflexivity.
  erewrite bind_ok by reflexivity.
  unfold EDR.on_world, EDR.on_edr, zoom, modify, print.
  cbn [fst snd EDR.edr EDR.set_edr EDR.set_world EDR.store EDR.world
       EDR.sensors EDR.set_sensors EDR.set_triggered EDR.set_event_timestamp
       EDR.set_reason EDR.triggered EDR.event_timestamp EDR.reason].
  cbn [for_each].
  unfold mbind, M_bind, gets.
  cbn [fst snd EDR.edr EDR.set_edr EDR.set_world EDR.store EDR.world
       EDR.sensors EDR.set_sensors EDR.set_triggered EDR.set_event_timestamp
       EDR.set_reason EDR.triggered EDR.event_timestamp EDR.reason].
  unfold EDR.on_sensor, EDR.set_edr, EDR.set_world.
  cbn [EDR.store EDR.world EDR.edr]. rewrite Hr.
  unfold EDRSensor.on_event_trigger, EDRSensor.on_buffer, on_self, zoom.
  cbn [fst snd]. unfold EDRBuffer.on_event_trigger. rewrite Hev.
  cbn [fst snd EDR.edr EDR.store]. eexists. split; [reflexivity|].
  cbn [EDR.edr EDR.store]. split.
  - unfold EDR.set_reason, EDR.set_event_timestamp, EDR.set_triggered,
      EDR.set_sensors. by cbn.
  - rewrite lookup_insert_eq. by destruct s.
Qed.

End Clear.

Lemma example_machine_armed : armed example_machine.
Proof.
  split; [reflexivity|]. split.
  - cbn. apply NoDup_cons.
    split; [by intros [= ]%list_elem_of_singleton | apply NoDup_singleton].
  - intros r Hr. cbn in Hr.
    apply elem_of_cons in Hr as [-> | Hr];
      [| apply elem_of_cons in Hr as [-> | Hr];
         [| by apply elem_of_nil in Hr] ];
      eexists; split; reflexivity.
Qed.

Lemma clear_event_resets_witness :
  exists st',
    EDR.clear_event example_triggered = (Ok tt, st') /\
    EDR.edr st' =
      EDR.mk (EDR.sensors (EDR.edr example_triggered)) false None "" /\
    EDR.world st' =
      emit (Print "Resetting EDR") (EDR.world example_triggered) /\
    forall r, EDR.store st' !! r =
                if decide (r ∈ EDR.sensors (EDR.edr example_triggered))
                then EDRSensor.clear_event <$> EDR.store example_triggered !! r
                else EDR.store example_triggered !! r.
Proof.
  destruct (clear_event_resets example_triggered) as [_ Htriggered].
  apply Htriggered.
  - reflexivity.
  - cbn. apply NoDup_cons.
    split; [by intros [= ]%list_elem_of_singleton | apply NoDup_singleton].
  - intros r Hr. cbn in Hr.
    apply elem_of_cons in Hr as [-> | Hr];
      [| apply elem_of_cons in Hr as [-> | Hr];
         [| by apply elem_of_nil in Hr] ];
      by eexists.
Defined.

Lemma event_cycle_rearms_witness :
  exists st1 st2,
    EDR.on_event_trigger 3%Q "manual" example_machine = (Ok tt, st1) /\
    EDR.triggered (EDR.edr st1) = true /\
    EDR.clear_event st1 = (Ok tt, st2) /\
    armed st2 /\
    EDR.edr st2 =
      EDR.mk (EDR.sensors (EDR.edr example_machine)) false None "" /\
    forall r, EDR.store st2 !! r =
                if decide (r ∈ EDR.sensors (EDR.edr example_machine))
                then (EDRSensor.clear_event ∘ trigger_sensor 3%Q) <$>
                       EDR.store example_machine !! r
                else EDR.store example_machine !! r.
Proof.
  apply (event_cycle_rearms example_machine 3%Q "manual").
  exact example_machine_armed.
Defined.

Lemma readded_sensor_blocks_trigger_witness :
  let st2 := snd (EDR.add_sensor 0%nat (snd (EDR.clear example_triggered))) in
  exists st3,
    EDR.on_event_trigger 5%Q "again" st2 = (Raise AssertionError, st3) /\
    EDR.edr st3 = EDR.mk [0%nat] true (Some 5%Q) "again" /\
    EDR.store st3 !! 0%nat = Some (example_recording "front").
Proof.
  apply (readded_sensor_blocks_trigger example_triggered 0%nat
           (example_recording "front") 3%Q 5%Q "again"); reflexivity.
Defined.

(** ** What the separating-axis test guarantees *)

Section EmptyPolygons.
Context {T : Type} `{PyNum T}.

Lemma has_collided_nil_l (p : T * T) (poly : list (T * T)) :
  SAT.has_collided [] (p :: poly) = Raise ValueError.
Proof. reflexivity. Qed.

Lemma has_collided_nil_r (p : T * T) (poly : list (T * T)) :
  SAT.has_collided (p :: poly) [] = Raise ValueError.
Proof. reflexivity. Qed.

(** X14: a polygon without a vertex.  Two empty polygons have no axis to
    test and count as collided; an empty polygon against one with a vertex
    raises [ValueError] ([min] of an empty list), whichever comes first
    and whatever the numbers are. *)
Theorem has_collided_empty_polygon :
  SAT.has_collided (T := T) [] [] = Ok true /\
  forall poly : list (T * T), poly <> [] ->
    SAT.has_collided [] poly = Raise ValueError /\
    SAT.has_collided poly [] = Raise ValueError.
Proof.
  split; [reflexivity|]. intros [|p poly] Hne; [done|].
  split; [apply has_collided_nil_l | apply has_collided_nil_r].
Qed.

End EmptyPolygons.

Section Guarantees.
Implicit Types (poly : list (Q * Q)) (axis x : Q * Q).

Lemma separated_on_sym axis poly1 poly2 :
  separated_on axis poly1 poly2 <-> separated_on axis poly2 poly1.
Proof.
  unfold separated_on. split; (intros [Hs | Hs]; [right | left]);
    intros u v Hu Hv; by apply Hs.
Qed.

(** [has_collided] on polygons with a vertex: a result, and it is [False]
    exactly when an orthogonal of an edge separates the polygons. *)
Lemma has_collided_spec poly1 poly2 :
  poly1 <> [] -> poly2 <> [] ->
  exists b,
    SAT.has_collided poly1 poly2 = Ok b /\
    (b = false <->
       exists axis,
         In axis (map SAT.orthogonal
                    (SAT.poly_to_edges poly1 ++ SAT.poly_to_edges poly2)) /\
         separated_on axis poly1 poly2).
Proof. intros Hne1 Hne2. by apply has_collided_loop_spec. Qed.

Lemma has_collided_false_inv poly1 poly2 :
  SAT.has_collided poly1 poly2 = Ok false ->
  poly1 <> [] /\ poly2 <> [] /\ exists axis, separated_on axis poly1 poly2.
Proof.
  intros Hrun.
  destruct poly1 as [|p1 l1]; [by destruct poly2|].
  destruct poly2 as [|p2 l2];
    [by rewrite (has_collided_nil_r (T := Q)) in Hrun|].
  split; [done|]. split; [done|].
  destruct (has_collided_spec (p1 :: l1) (p2 :: l2)) as (b & Hb & Hiff); [done..|].
  rewrite Hrun in Hb. injection Hb as <-.
  destruct Hiff as [Hiff _]. destruct (Hiff eq_refl) as (axis & _ & Hsep).
  by exists axis.
Qed.

(** X15: the test is symmetric in the two polygons. *)
Theorem has_collided_symmetric poly1 poly2 :
  poly1 <> [] -> poly2 <> [] ->
  SAT.has_collided poly1 poly2 = SAT.has_collided poly2 poly1.
Proof.
  intros Hne1 Hne2.
  destruct (has_collided_spec poly1 poly2 Hne1 Hne2) as (b12 & -> & H12).
  destruct (has_collided_spec poly2 poly1 Hne2 Hne1) as (b21 & -> & H21).
  f_equal.
  assert (Hiff : b12 = false <-> b21 = false).
  { rewrite H12, H21. split; intros (axis & Hin & Hsep); exists axis;
      (split; [|by apply separated_on_sym]);
      rewrite map_app, in_app_iff in Hin |- *; tauto. }
  destruct b12, b21; try done.
  - by destruct Hiff as [_ ->].
  - by destruct Hiff as [->].
Qed.

(** X16: touching counts as a collision.  Two polygons that share a
    vertex are reported as collided. *)
Theorem shared_vertex_collides poly1 poly2 (v : Q * Q) :
  In v poly1 -> In v poly2 -> SAT.has_collided poly1 poly2 = Ok true.
Proof.
  intros H1 H2.
  destruct (has_collided_spec poly1 poly2) as (b & -> & Hiff).
  { by destruct poly1. }
  { by destruct poly2. }
  destruct b; [done|].
  destruct Hiff as [Hiff _]. destruct (Hiff eq_refl) as (axis & _ & [Hs | Hs]);
    specialize (Hs v v H1 H2); lra.
Qed.

(** X17: polygons of a single vertex are reported as collided wherever
    they are: their only edge has no length, so no axis separates them. *)
Theorem single_points_always_collide (p q : Q * Q) :
  SAT.has_collided [p] [q] = Ok true.
Proof.
  destruct (has_collided_spec [p] [q]) as (b & -> & Hiff); [done..|].
  destruct b; [done|].
  destruct Hiff as [Hiff _]. destruct (Hiff eq_refl) as (axis & Hin & Hsep).
  exfalso. destruct p as [px py], q as [qx qy].
  cbn in Hin. destruct Hin as [<- | [<- | []]];
    destruct Hsep as [Hs | Hs];
    specialize (Hs (px, py) (qx, qy) (or_introl eq_refl) (or_introl eq_refl));
    unfold SAT.dot_product, SAT.orthogonal, SAT.edge_vector in Hs;
    cbn in Hs; lra.
Qed.

(** *** A separating axis separates the convex hulls *)

Lemma weighted_sum_lower wps poly axis (lo : Q) :
  Forall (fun wp => (0 <= fst wp)%Q /\ In (snd wp) poly) wps ->
  (forall u, In u poly -> (lo <= SAT.dot_product u axis)%Q) ->
  (lo * total_weight wps <= SAT.dot_product (weighted_sum wps) axis)%Q.
Proof.
  intros Hwps Hlo. induction Hwps as [|[w [ux uy]] rest [Hw Hu] _ IH].
  - unfold SAT.dot_product. cbn. lra.
  - specialize (Hlo _ Hu). destruct axis as [ax ay].
    unfold SAT.dot_product in *. cbn in *. nra.
Qed.

Lemma weighted_sum_upper wps poly axis (hi : Q) :
  Forall (fun wp => (0 <= fst wp)%Q /\ In (snd wp) poly) wps ->
  (forall u, In u poly -> (SAT.dot_product u axis <= hi)%Q) ->
  (SAT.dot_product (weighted_sum wps) axis <= hi * total_weight wps)%Q.
Proof.
  intros Hwps Hhi. induction Hwps as [|[w [ux uy]] rest [Hw Hu] _ IH].
  - unfold SAT.dot_product. cbn. lra.
  - specialize (Hhi _ Hu). destruct axis as [ax ay].
    unfold SAT.dot_product in *. cbn in *. nra.
Qed.

Lemma in_hull_bounds poly axis x (lo hi : Q) :
  in_hull poly x ->
  (forall u, In u poly -> (lo <= SAT.dot_product u axis <= hi)%Q) ->
  (lo <= SAT.dot_product x axis <= hi)%Q.
Proof.
  intros (wps & Hwps & Hone & Hx & Hy) Hb.
  pose proof (weighted_sum_lower wps poly axis lo Hwps
                (fun u Hu => proj1 (Hb u Hu))) as Hlo.
  pose proof (weighted_sum_upper wps poly axis hi Hwps
                (fun u Hu => proj2 (Hb u Hu))) as Hhi.
  assert (Hdot : (SAT.dot_product x axis ==
                  SAT.dot_product (weighted_sum wps) axis)%Q).
  { unfold SAT.dot_product. cbn. by rewrite Hx, Hy. }
  rewrite Hone in Hlo, Hhi. rewrite Hdot. lra.
Qed.

(** X18: the answer [False] is safe.  When [has_collided] returns
    [False], no point lies in the convex hulls of both polygons, whatever
    the polygons are (convex or not, their vertices in any order). *)
Theorem not_collided_hulls_disjoint poly1 poly2 x :
  SAT.has_collided poly1 poly2 = Ok false ->
  ~ (in_hull poly1 x /\ in_hull poly2 x).
Proof.
  intros Hrun [Hx1 Hx2].
  destruct (has_collided_false_inv _ _ Hrun) as (Hne1 & Hne2 & axis & Hsep).
  destruct (project_spec poly1 axis Hne1)
    as (lo1 & hi1 & _ & (ulo & Hulo & <-) & (uhi & Huhi & <-) & Hr1).
  destruct (project_spec poly2 axis Hne2)
    as (lo2 & hi2 & _ & (vlo & Hvlo & <-) & (vhi & Hvhi & <-) & Hr2).
  pose proof (in_hull_bounds poly1 axis x _ _ Hx1 Hr1) as Hb1.
  pose proof (in_hull_bounds poly2 axis x _ _ Hx2 Hr2) as Hb2.
  destruct Hsep as [Hs | Hs].
  - specialize (Hs ulo vhi Hulo Hvhi). lra.
  - specialize (Hs uhi vlo Huhi Hvlo). lra.
Qed.

End Guarantees.

Lemma has_collided_symmetric_witness :
  SAT.has_collided (unit_square 0) (unit_square 5) =
  SAT.has_collided (unit_square 5) (unit_square 0).
Proof.
  apply (has_collided_symmetric (unit_square 0) (unit_square 5));
    discriminate.
Defined.

Lemma shared_vertex_collides_witness :
  SAT.has_collided (unit_square 0) (unit_square 1) = Ok true.
Proof.
  apply (shared_vertex_collides (unit_square 0) (unit_square 1)
           ((1 # 2)%Q, (- (1 # 2))%Q)).
  - right. left. reflexivity.
  - left. reflexivity.
Defined.

Lemma not_collided_hulls_disjoint_witness :
  ~ (in_hull (unit_square 0) (0%Q, 0%Q) /\ in_hull (unit_square 5) (0%Q, 0%Q)).
Proof.
  apply (not_collided_hulls_disjoint (unit_square 0) (unit_square 5)).
  reflexivity.
Defined.

(** The centre of a square is in its hull: a quarter of each vertex. *)
Example centre_in_hull : in_hull (unit_square 0) (0%Q, 0%Q).
Proof.
  exists (map (fun v => ((1 # 4)%Q, v)) (unit_square 0)).
  split; [|split; [|split]].
  - repeat constructor; cbn; auto 6; q_order.
  - reflexivity.
  - reflexivity.
  - reflexivity.
Qed.

(** ** The recorder in the simulator's [World] *)

Section Autosave.
Context {T : Type} `{PyNum T} {Data : Type}.
Implicit Types (s : CarlaWorld.t T Data) (st : EDR.Machine T Data).

Lemma ok_bind_inv {S A B} (m : M S A) (f : A -> M S B) (x x' : S) (b : B) :
  (m ≫= f) x = (Ok b, x') ->
  exists a x1, m x = (Ok a, x1) /\ f a x1 = (Ok b, x').
Proof.
  unfold mbind, M_bind. destruct (m x) as [[a|e] x1]; [eauto | done].
Qed.

(** What holds after [m ≫= f] has returned, when [m] keeps [I]. *)
Lemma ok_after {A} (I : EDR.t T -> Prop) (Q : EDR.Machine T Data -> Prop)
    (m : M (EDR.Machine T Data) A) (f : A -> M (EDR.Machine T Data) unit) :
  keeps I m ->
  (forall a st st', I (EDR.edr st) -> f a st = (Ok tt, st') -> Q st') ->
  forall st st', I (EDR.edr st) -> (m ≫= f) st = (Ok tt, st') -> Q st'.
Proof.
  intros Hm Hf st st' HI Hrun.
  apply ok_bind_inv in Hrun as (a & st1 & Hrun1 & Hrun2).
  apply (Hf a st1); [|done].
  specialize (Hm st HI). by rewrite Hrun1 in Hm.
Qed.

Lemma clear_event_ok_idle st st' :
  consistent (EDR.edr st) ->
  EDR.clear_event st = (Ok tt, st') ->
  EDR.event_timestamp (EDR.edr st') = None.
Proof.
  intros HI. unfold EDR.clear_event, EDR.has_triggered.
  unfold mbind at 1. unfold M_bind, gets.
  destruct (EDR.triggered (EDR.edr st)) eqn:Ht; cbn [negb].
  - intros Hrun.
    apply ok_bind_inv in Hrun as (? & st1 & _ & Hrun).
    apply ok_bind_inv in Hrun as (? & st2 & _ & Hrun).
    apply ok_bind_inv in Hrun as (? & st3 & _ & Hrun).
    apply ok_bind_inv in Hrun as (? & st4 & Hrun4 & Hrun).
    apply ok_bind_inv in Hrun as (? & st5 & Hrun5 & Hrun).
    unfold EDR.on_edr, zoom, modify in Hrun4, Hrun5, Hrun.
    injection Hrun4 as _ <-. injection Hrun5 as _ <-. injection Hrun as <-.
    reflexivity.
  - intros [= <-]. by apply HI.
Qed.

Lemma save_data_ok_idle (strftime : T -> string) (base_path : string) st st' :
  consistent (EDR.edr st) ->
  EDR.save_data strftime base_path st = (Ok tt, st') ->
  EDR.event_timestamp (EDR.edr st') = None.
Proof.
  revert st st'. unfold EDR.save_data.
  apply (ok_after consistent); [apply keeps_gets|].
  intros [ts|]; [|done].
  do 7 (apply (ok_after consistent);
          [first [apply keeps_on_world | apply keeps_gets
                 | apply keeps_for_each; intros r; apply keeps_on_sensor]
          | intros ?]).
  intros st st'. apply clear_event_ok_idle.
Qed.

Lemma set_edr_same s : CarlaWorld.set_edr (CarlaWorld.edr s) s = s.
Proof. by destruct s. Qed.

(** The automatic save on a recorder that has no event. *)
Lemma autosave_without_event (strftime : T -> string) s (now deadline : T) :
  CarlaWorld.edr_enabled s = true ->
  CarlaWorld._edr_autosave s = true ->
  CarlaWorld._edr_savetime s = Some deadline ->
  pgt now deadline = true ->
  EDR.event_timestamp (EDR.edr (CarlaWorld.edr s)) = None ->
  CarlaWorld.check_edr_autosave strftime now s =
    (Raise TypeError, CarlaWorld.set__edr_savetime None s).
Proof.
  intros Hen Hauto Hsave Hnow Hev.
  unfold CarlaWorld.check_edr_autosave, CarlaWorld.save_edr_data.
  unfold mbind, M_bind, gets, modify, CarlaWorld.on_edr, zoom.
  rewrite Hen, Hsave, Hnow.
  cbn [CarlaWorld._edr_autosave CarlaWorld.edr_enabled CarlaWorld.data_path
       CarlaWorld.edr CarlaWorld.set__edr_savetime].
  rewrite Hauto.
  change (CarlaWorld.edr_enabled (CarlaWorld.set__edr_savetime None s))
    with (CarlaWorld.edr_enabled s).
  rewrite Hen.
  change (CarlaWorld.edr (CarlaWorld.set__edr_savetime None s))
    with (CarlaWorld.edr s).
  unfold EDR.save_data, mbind, M_bind, gets. rewrite Hev.
  reflexivity.
Qed.

(** X19: the pending automatic save outlives the event.  With the
    recorder enabled and automatic saving on, an event is triggered; the
    event is then cleared (key G) or saved by hand (key J), and that call
    returns.  [_edr_savetime] is still set, so the first
    [check_edr_autosave] after the deadline calls [EDR.save_data] on a
    recorder without an event: [TypeError], and [_edr_savetime] is
    [None] from then on. *)
Theorem autosave_after_reset_raises (strftime : T -> string) s s1 s2
    (now later late : T) (reason : string) :
  CarlaWorld.edr_enabled s = true ->
  CarlaWorld._edr_autosave s = true ->
  consistent (EDR.edr (CarlaWorld.edr s)) ->
  CarlaWorld.trigger_edr_event now later reason s = (Ok tt, s1) ->
  CarlaWorld.clear_edr_event s1 = (Ok tt, s2) \/
    CarlaWorld.save_edr_data strftime s1 = (Ok tt, s2) ->
  pgt late (padd (padd later (CarlaWorld._edr_posttime s))
              CarlaWorld.EDR_SAVE_DELAY) = true ->
  CarlaWorld.check_edr_autosave strftime late s2 =
    (Raise TypeError, CarlaWorld.set__edr_savetime None s2).
Proof.
  intros Hen Hauto HI Htrig Hreset Hlate.
  unfold CarlaWorld.trigger_edr_event in Htrig.
  unfold mbind at 1 in Htrig. unfold M_bind, gets in Htrig.
  rewrite Hen in Htrig.
  apply ok_bind_inv in Htrig as ([] & s' & Hrun & Htrig).
  unfold CarlaWorld.on_edr, zoom in Hrun.
  pose proof (keeps_on_event_trigger now reason (CarlaWorld.edr s) HI) as HI1.
  destruct (EDR.on_event_trigger now reason (CarlaWorld.edr s)) as [res m1].
  injection Hrun as -> <-. cbn [snd] in HI1.
  unfold mbind, M_bind, gets, modify in Htrig. injection Htrig as <-.
  cbn [CarlaWorld._edr_posttime CarlaWorld.set_edr] in Hlate |- *.
  assert (Hs2 : exists m2,
            s2 = CarlaWorld.set_edr m2
                   (CarlaWorld.set__edr_savetime
                      (Some (padd (padd later (CarlaWorld._edr_posttime s))
                               CarlaWorld.EDR_SAVE_DELAY))
                      (CarlaWorld.set_edr m1 s)) /\
            EDR.event_timestamp (EDR.edr m2) = None).
  { destruct Hreset as [Hreset | Hreset].
    - unfold CarlaWorld.clear_edr_event, mbind, M_bind, gets,
        CarlaWorld.on_edr, zoom in Hreset.
      cbn [CarlaWorld.edr_enabled CarlaWorld.set__edr_savetime
           CarlaWorld.set_edr CarlaWorld.edr] in Hreset.
      rewrite Hen in Hreset.
      change (CarlaWorld.edr (CarlaWorld.set__edr_savetime _ _)) with m1
        in Hreset.
      destruct (EDR.clear_event m1) as [res m2] eqn:Hclear.
      cbv beta iota in Hreset. injection Hreset as -> <-. exists m2. split; [done|].
      by apply (clear_event_ok_idle m1).
    - unfold CarlaWorld.save_edr_data, mbind, M_bind, gets,
        CarlaWorld.on_edr, zoom in Hreset.
      cbn [CarlaWorld.edr_enabled CarlaWorld.set__edr_savetime
           CarlaWorld.set_edr CarlaWorld.edr CarlaWorld.data_path] in Hreset.
      rewrite Hen in Hreset.
      change (CarlaWorld.edr (CarlaWorld.set__edr_savetime _ _)) with m1
        in Hreset.
      change (CarlaWorld.data_path (CarlaWorld.set__edr_savetime _ _))
        with (CarlaWorld.data_path s) in Hreset.
      destruct (EDR.save_data strftime (CarlaWorld.data_path s) m1)
        as [res m2] eqn:Hsave.
      cbv beta iota in Hreset. injection Hreset as -> <-. exists m2. split; [done|].
      by apply (save_data_ok_idle strftime (CarlaWorld.data_path s) m1). }
  destruct Hs2 as (m2 & -> & Hev).
  by apply (autosave_without_event strftime _ late
              (padd (padd later (CarlaWorld._edr_posttime s))
                 CarlaWorld.EDR_SAVE_DELAY)).
Qed.

(** X20: a trigger during an event does not touch the recorder (the
    first event stays) but moves the automatic save: [_edr_savetime] is
    set anew from the clock. *)
Theorem retrigger_moves_autosave s (now later : T) (reason : string) :
  CarlaWorld.edr_enabled s = true ->
  EDR.triggered (EDR.edr (CarlaWorld.edr s)) = true ->
  CarlaWorld.trigger_edr_event now later reason s =
    (Ok tt,
     CarlaWorld.set__edr_savetime
       (Some (padd (padd later (CarlaWorld._edr_posttime s))
                CarlaWorld.EDR_SAVE_DELAY)) s).
Proof.
  intros Hen Ht.
  unfold CarlaWorld.trigger_edr_event, mbind, M_bind, gets, modify,
    CarlaWorld.on_edr, zoom.
  rewrite Hen.
  unfold EDR.on_event_trigger, EDR.has_triggered, mbind, M_bind, gets.
  rewrite Ht. cbn [mret M_ret CarlaWorld._edr_posttime CarlaWorld.set_edr].
  by rewrite set_edr_same.
Qed.

End Autosave.

Lemma autosave_after_reset_raises_witness :
  let s1 := snd (CarlaWorld.trigger_edr_event 3%Q 3%Q "Collision"
                   example_world) in
  let s2 := snd (CarlaWorld.clear_edr_event s1) in
  CarlaWorld.check_edr_autosave (fun _ => "2022-03-01-12-00-00") 7%Q s2 =
    (Raise TypeError, CarlaWorld.set__edr_savetime None s2).
Proof.
  apply (autosave_after_reset_raises (fun _ => "2022-03-01-12-00-00")
           example_world
           (snd (CarlaWorld.trigger_edr_event 3%Q 3%Q "Collision"
                   example_world))
           (snd (CarlaWorld.clear_edr_event
                   (snd (CarlaWorld.trigger_edr_event 3%Q 3%Q "Collision"
                           example_world))))
           3%Q 3%Q 7%Q "Collision").
  - reflexivity.
  - reflexivity.
  - done.
  - reflexivity.
  - left. reflexivity.
  - reflexivity.
Defined.

Lemma retrigger_moves_autosave_witness :
  let s := CarlaWorld.mk example_triggered true "out" true (Some 6%Q) 1%Q in
  CarlaWorld.trigger_edr_event 5%Q 5%Q "Collision" s =
    (Ok tt,
     CarlaWorld.set__edr_savetime
       (Some (padd (padd 5%Q (CarlaWorld._edr_posttime s))
                CarlaWorld.EDR_SAVE_DELAY)) s).
Proof.
  apply (retrigger_moves_autosave
           (CarlaWorld.mk example_triggered true "out" true (Some 6%Q) 1%Q)
           5%Q 5%Q "Collision"); reflexivity.
Defined.

(** ** Names of actors and maps *)

Lemma prefix_inv (p s : string) :
  String.prefix p s = true -> exists r, s = p +++ r.
Proof.
  revert s. induction p as [|c p IH]; intros s.
  - by exists s.
  - destruct s as [|c' s]; cbn; [done|].
    destruct (ascii_dec c c') as [<-|]; [|done].
    intros (r & ->)%IH. by exists r.
Qed.

(** X21: every actor that [World._is_vru] takes for a vulnerable road
    user is a pedestrian or a bicycle for [get_actor_type], and has a
    positive proximity threshold: 0.75 for a walker, 1.0 for the three
    bicycles. *)
Theorem vru_has_proximity_threshold (type_id : string) :
  CarlaWorld._is_vru type_id = true ->
  get_proximity_threshold (get_actor_type type_id) =
    (if String.prefix "walker." type_id then (3 # 4)%Q else 1%Q) /\
  (0 < get_proximity_threshold (get_actor_type type_id))%Q.
Proof.
  unfold CarlaWorld._is_vru. rewrite !orb_true_iff.
  intros [[[Hid | Hid] | Hid] | Hid];
    try (apply String.eqb_eq in Hid; subst; split; [reflexivity | q_order]).
  rewrite Hid. apply prefix_inv in Hid as (r & ->).
  assert (Htype : get_actor_type ("walker." +++ r) = "pedestrian").
  { unfold get_actor_type.
    change ("walker." +++ r) with
      (String "w" (String "a" (String "l" (String "k" (String "e"
         (String "r" (String "." r))))))).
    cbn [split Ascii.eqb Bool.eqb].
    destruct (split "." r) as [|piece pieces]; reflexivity. }
  rewrite Htype. split; [reflexivity | q_order].
Qed.

Lemma vru_has_proximity_threshold_witness :
  get_proximity_threshold (get_actor_type "walker.pedestrian.0001") =
    (if String.prefix "walker." "walker.pedestrian.0001"
     then (3 # 4)%Q else 1%Q) /\
  (0 < get_proximity_threshold (get_actor_type "walker.pedestrian.0001"))%Q.
Proof.
  apply (vru_has_proximity_threshold "walker.pedestrian.0001"). reflexivity.
Defined.

Lemma split_nonempty (sep : ascii) (s : string) : split sep s <> [].
Proof. destruct s as [|c r]; cbn [split]; repeat case_match; discriminate. Qed.

Lemma split_first_clean (sep : ascii) (s : string) :
  has_char sep (nth 0 (split sep s) "") = false.
Proof.
  induction s as [|c r IH]; [done|]. cbn [split].
  destruct (Ascii.eqb c sep) eqn:E; [done|].
  destruct (split sep r) as [|piece pieces]; cbn in IH |- *; by rewrite E.
Qed.

Lemma split_first (sep : ascii) (a r : string) :
  has_char sep a = false ->
  nth 0 (split sep (a +++ String sep r)) "" = a.
Proof.
  induction a as [|c a IH].
  - intros _. change ("" +++ String sep r) with (String sep r).
    cbn [split]. by rewrite Ascii.eqb_refl.
  - change (String c a +++ String sep r) with (String c (a +++ String sep r)).
    cbn [split has_char].
    intros [Hc Ha]%orb_false_iff. rewrite Hc.
    specialize (IH Ha).
    destruct (split sep (a +++ String sep r)) as [|piece pieces] eqn:E.
    + by destruct (split_nonempty sep (a +++ String sep r)).
    + cbn in IH |- *. by rewrite IH.
Qed.

Lemma split_whole (sep : ascii) (a : string) :
  has_char sep a = false -> split sep a = [a].
Proof.
  induction a as [|c a IH]; cbn [split has_char]; [done|].
  intros [Hc Ha]%orb_false_iff. by rewrite Hc, IH.
Qed.

(** X22: the base name of a map is what comes before its first
    underscore, whatever follows it: it holds no underscore, taking it
    twice changes nothing, and a name without underscore is its own base
    name.  So [Town10HD_Opt] and [Town10HD] share a log file, and so do
    any two maps whose names agree up to the first underscore. *)
Theorem base_map_name_before_first_underscore (map_name : string) :
  has_char "_" (_get_base_map_name map_name) = false /\
  _get_base_map_name (_get_base_map_name map_name) =
    _get_base_map_name map_name /\
  (has_char "_" map_name = false -> _get_base_map_name map_name = map_name) /\
  forall rest,
    _get_base_map_name (_get_base_map_name map_name +++ "_" +++ rest) =
      _get_base_map_name map_name.
Proof.
  pose proof (split_first_clean "_" map_name) as Hclean.
  unfold _get_base_map_name in *.
  split; [done|]. split; [|split].
  - by rewrite (split_whole "_" _ Hclean).
  - intros Hno. by rewrite split_whole.
  - intros rest. by apply split_first.
Qed.

(** ** Where a buffer writes *)

Lemma prefix_nil (b : string) : String.prefix "" b = true.
Proof. by destruct b. Qed.

Lemma prefix_append (a b : string) : String.prefix a (a +++ b) = true.
Proof.
  induction a as [|c a IH]; [apply prefix_nil|].
  change (String c a +++ b) with (String c (a +++ b)). cbn.
  by destruct (ascii_dec c c).
Qed.

Lemma prefix_refl (a : string) : String.prefix a a = true.
Proof.
  induction a as [|c a IH]; [reflexivity|]. cbn. by destruct (ascii_dec c c).
Qed.

Lemma prefix_trans (a b c : string) :
  String.prefix a b = true -> String.prefix b c = true ->
  String.prefix a c = true.
Proof.
  revert b c. induction a as [|x a IH]; intros b c; [intros; apply prefix_nil|].
  destruct b as [|y b]; [discriminate|].
  destruct c as [|z c]; cbn; [by case_match|].
  destruct (ascii_dec x y) as [<-|]; [|done].
  destruct (ascii_dec x z) as [<-|]; [by apply IH | done].
Qed.

Lemma prefix_join2 (base path b : string) :
  String.prefix base path = true -> starts_with_sep b = false ->
  String.prefix base (join2 path b) = true.
Proof.
  intros Hbase Hb. unfold join2. rewrite Hb.
  case_match; apply (prefix_trans _ path); try done; apply prefix_append.
Qed.

Lemma digit_not_sep (n : Z) : Ascii.eqb (digit (n mod 10)) "/" = false.
Proof.
  unfold digit.
  assert (Hn : (Z.to_nat (n mod 10) < 10)%nat)
    by (pose proof (Z.mod_pos_bound n 10); lia).
  revert Hn. generalize (Z.to_nat (n mod 10)). intros k Hk.
  do 10 (destruct k as [|k]; [reflexivity|]). lia.
Qed.

Lemma int_digits_head (fuel : nat) (n : Z) (c : ascii) (r : string) :
  Ascii.eqb c "/" = false ->
  starts_with_sep (int_digits fuel n (String c r)) = false.
Proof.
  revert n c r. induction fuel as [|f IH]; intros n c r Hc; [done|].
  cbn [int_digits]. case_match; [|apply IH]; cbn; apply digit_not_sep.
Qed.

Lemma str_int_head (n : Z) (rest : string) :
  starts_with_sep (str_int n +++ rest) = false.
Proof.
  unfold str_int. cbn [int_digits].
  assert (Hhead : forall s, starts_with_sep s = false -> s <> "" ->
                            starts_with_sep (s +++ rest) = false).
  { intros [|c s] Hs Hne; [done|]. exact Hs. }
  case_match; apply Hhead; try done.
  - cbn. apply digit_not_sep.
  - apply int_digits_head, digit_not_sep.
  - intros Hnil.
    match type of Hnil with int_digits ?f ?m ?acc = _ =>
      pose proof (int_digits_length f m acc) as Hlen
    end.
    rewrite Hnil in Hlen. cbn in Hlen. lia.
Qed.

Lemma item_filename_relative {T} `{PyNum T} (sid : string) (ts offset : T)
    (ext : string) :
  starts_with_sep sid = false ->
  starts_with_sep (EDRBuffer.item_filename sid ts offset ext) = false.
Proof.
  intros Hsid. unfold EDRBuffer.item_filename.
  destruct sid as [|c sid]; [|exact Hsid].
  change (negb (String.eqb "" "")) with false. cbv iota.
  change ("" +++ ?x) with x.
  unfold format_f.
  set (pad := (19 - _)%nat). destruct pad as [|k]; [|done].
  change (string_repeat " " 0 +++ ?x) with x.
  destruct (Qlt_bool (pvalue ts) 0); [done|].
  change ("" +++ ?x) with x.
  unfold fixed. cbv zeta. rewrite !append_assoc. apply str_int_head.
Qed.

Section Adds.
Context {S Data : Type}.
Implicit Types (I : S -> Prop) (P : Effect Data -> Prop).

Lemma adds_ret {A} I P (a : A) : adds I P (mret a : M (S * World Data) A).
Proof.
  intros s HI. split; [done|]. exists []. by rewrite app_nil_r.
Qed.

Lemma adds_raise {A} I P e : adds I P (raise e : M (S * World Data) A).
Proof.
  intros s HI. split; [done|]. exists []. by rewrite app_nil_r.
Qed.

Lemma adds_bind {A B} I P (m : M (S * World Data) A)
    (f : A -> M (S * World Data) B) :
  adds I P m -> (forall a, adds I P (f a)) -> adds I P (m ≫= f).
Proof.
  intros Hm Hf s HI. unfold mbind, M_bind.
  destruct (Hm s HI) as (HI1 & l1 & Hl1 & HP1).
  destruct (m s) as [[a|e] s1]; cbn [fst snd] in *; [|eauto].
  destruct (Hf a s1 HI1) as (HI2 & l2 & Hl2 & HP2).
  split; [done|]. exists (l1 ++ l2).
  rewrite Hl2, Hl1, app_assoc. split; [done|]. by apply Forall_app.
Qed.

Lemma adds_gets_bind {A B} I P (g : S * World Data -> A)
    (k : A -> M (S * World Data) B) :
  (forall s0, I (fst s0) -> adds I P (k (g s0))) -> adds I P (gets g ≫= k).
Proof. intros Hk s HI. by apply (Hk s). Qed.

Lemma adds_for_each {A} I P (l : list A) (body : A -> M (S * World Data) unit) :
  (forall a, adds I P (body a)) -> adds I P (for_each l body).
Proof.
  intros Hbody. induction l as [|a l IH]; [apply adds_ret|].
  rewrite for_each_cons. apply adds_bind; [apply Hbody | by intros _].
Qed.

Lemma adds_io_guarded I P (path : string) (e : Effect Data) :
  P e -> adds I P (io (guarded path e) : M (S * World Data) unit).
Proof.
  intros HP s HI. unfold io, zoom, guarded.
  destruct (is_denied path (snd s)); cbn.
  - split; [done|]. exists []. by rewrite app_nil_r.
  - split; [done|]. exists [e]. split; [done|]. by constructor.
Qed.

Lemma adds_on_self_modify I P (f : S -> S) :
  (forall x, I x -> I (f x)) ->
  adds I P (on_self (modify f) : M (S * World Data) unit).
Proof.
  intros Hf s HI. unfold on_self, zoom, modify. cbn.
  split; [by apply Hf|]. exists []. by rewrite app_nil_r.
Qed.

End Adds.

Section Paths.
Context {T : Type} `{PyNum T} {Data : Type}.
Implicit Types (b : EDRBuffer.t T Data) (w : World Data).

(** X23: a buffer writes only below [base_path].  If neither
    [sensor_type] nor [sensor_id] begins with a separator, then whatever
    the buffer holds and however [save_data] ends, every effect it has is
    on the disk, on a path that begins with [base_path]: the sensor's
    folder and the files in it. *)
Theorem saved_paths_under_base b w (base_path ext : string) :
  starts_with_sep (EDRBuffer.sensor_type b) = false ->
  starts_with_sep (EDRBuffer.sensor_id b) = false ->
  exists l,
    log (snd (snd (EDRBuffer.save_data base_path ext (b, w)))) = log w ++ l /\
    Forall (touches_under base_path) l.
Proof.
  intros Htype Hid.
  set (I := fun c : EDRBuffer.t T Data =>
              EDRBuffer.sensor_type c = EDRBuffer.sensor_type b /\
              EDRBuffer.sensor_id c = EDRBuffer.sensor_id b).
  assert (Hfolder : String.prefix base_path
            (os_path_join base_path
               [EDRBuffer.sensor_type b; EDRBuffer.sensor_id b]) = true).
  { unfold os_path_join. cbn [fold_left].
    apply prefix_join2; [|done]. apply prefix_join2; [|done].
    apply prefix_refl. }
  assert (Hitem : forall item,
            adds (Data := Data) I (touches_under base_path)
              (EDRBuffer._save_data_item item
                 (os_path_join base_path
                    [EDRBuffer.sensor_type b; EDRBuffer.sensor_id b]) ext)).
  { intros item. unfold EDRBuffer._save_data_item.
    apply adds_gets_bind. intros s0 _.
    destruct (EDRBuffer.event_timestamp (fst s0)); [|apply adds_raise].
    apply adds_gets_bind. intros s1 [_ Hid1]. rewrite Hid1.
    apply adds_io_guarded. eexists. split; [reflexivity|].
    unfold os_path_join at 1. cbn [fold_left].
    apply prefix_join2; [done|]. by apply item_filename_relative. }
  assert (Hrun : adds (Data := Data) I (touches_under base_path)
                   (EDRBuffer.save_data base_path ext)).
  { unfold EDRBuffer.save_data.
    apply adds_bind; [by apply adds_on_self_modify|]. intros _.
    apply adds_gets_bind. intros s0 [Hty0 _]. rewrite Hty0.
    apply adds_gets_bind. intros s1 [_ Hid1]. rewrite Hid1.
    apply adds_bind.
    { apply adds_io_guarded. eexists. split; [reflexivity | done]. }
    intros _. apply adds_gets_bind. intros s2 _.
    apply adds_bind.
    { apply adds_for_each. intros item.
      apply adds_gets_bind. intros s3 _.
      destruct (EDRBuffer.start_timestamp (fst s3)); [|apply adds_raise].
      case_match; [apply Hitem | apply adds_ret]. }
    intros _. apply adds_gets_bind. intros s3 _.
    apply adds_bind.
    { apply adds_for_each. intros item.
      apply adds_gets_bind. intros s4 _.
      destruct (EDRBuffer.end_timestamp (fst s4)); [|apply adds_raise].
      case_match; [apply Hitem | apply adds_ret]. }
    intros _. by apply adds_on_self_modify. }
  destruct (Hrun (b, w)) as (_ & l & Hl & HP); [done|]. by exists l.
Qed.

End Paths.

Lemma saved_paths_under_base_witness :
  exists l,
    log (snd (snd (EDRBuffer.save_data "out" ".png"
                     (example_history, mkWorld [] [])))) = [] ++ l /\
    Forall (touches_under "out") l.
Proof.
  apply (saved_paths_under_base example_history (mkWorld [] []) "out" ".png");
    reflexivity.
Defined.

(** A sensor whose id begins with a separator writes where the id says,
    whatever [base_path] is. *)
Example absolute_sensor_id_leaves_base (base_path stype sid : string) :
  starts_with_sep sid = true ->
  os_path_join base_path [stype; sid] = sid.
Proof. intros Hsid. unfold os_path_join. cbn. unfold join2 at 1. by rewrite Hsid. Qed.

(** ** Construction with a short or negative window *)




Section Construction.
Context {Data : Type}.


(** A sensor is made after its buffer.  When the buffer cannot be made,
    [EDRSensor.__init__] raises and prints nothing; otherwise it prints
    one line, the class name after [created:] and the id in brackets, or
    an empty word for a sensor without id. *)
Lemma sensor_init_after_buffer (cls stype sid : string) (p post r : Q)
    (w : World Data) :
  match EDRBuffer.__init__ stype sid p post r with
  | Raise e =>
      EDRSensor.__init__ cls p post r stype sid w = (Raise e, w)
  | Ok b =>
      EDRSensor.__init__ cls p post r stype sid w =
        (Ok (EDRSensor.mk cls stype sid b ""),
         emit (Print ("created: " +++ cls +++ " " +++
                      if negb (String.eqb sid "") then "[" +++ sid +++ "]"
                      else "")) w)
  end.
Proof.
  unfold EDRSensor.__init__, mbind, M_bind, lift_res.
  destruct (EDRBuffer.__init__ stype sid p post r) as [b|e]; [|done].
  unfold print, modify. cbn [String.concat]. reflexivity.
Qed.

End Construction.

Lemma init_window_bounds_example :
  EDRBuffer.__init__ (Data := nat) "images" "cam" (-2)%Q 1%Q 10%Q =
    Raise ValueError /\
  exists b,
    EDRBuffer.__init__ (Data := nat) "images" "cam" (1 # 20)%Q 1%Q 10%Q = Ok b /\
    deque.maxlen (EDRBuffer.preevent_buffer b) = Some 0%nat.
Proof. split; [reflexivity|]. eexists. split; reflexivity. Qed.

(** ** A save that fails *)

Section FailedSave.
Context {T : Type} `{PyNum T} {Data : Type}.
Implicit Types (st : EDR.Machine T Data).

Lemma quiet_keeps {A} (m : M (EDR.Machine T Data) A) :
  (forall e0 : EDR.t T, keeps (fun e => e = e0) m) -> quiet m.
Proof. intros Hm st. by apply (Hm (EDR.edr st)). Qed.

Lemma quiet_on_world {A} (m : M (World Data) A) :
  quiet (EDR.on_world (T := T) m).
Proof. apply quiet_keeps. intros e0. apply keeps_on_world. Qed.

Lemma quiet_gets {A} (f : EDR.Machine T Data -> A) : quiet (gets f).
Proof. by intros st. Qed.

Lemma quiet_sensors (l : list EDR.ref)
    (m : EDR.ref -> M (EDRSensor.t T Data * World Data) unit) :
  quiet (for_each l (fun sensor => EDR.on_sensor sensor (m sensor))).
Proof.
  apply quiet_keeps. intros e0.
  apply keeps_for_each. intros r. apply keeps_on_sensor.
Qed.

Lemma undone_bind {A B} (m : M (EDR.Machine T Data) A)
    (f : A -> M (EDR.Machine T Data) B) :
  quiet m -> (forall a, undone_on_raise (f a)) -> undone_on_raise (m ≫= f).
Proof.
  intros Hm Hf st e. unfold mbind, M_bind.
  specialize (Hm st). destruct (m st) as [[a|e1] st1]; cbn [fst snd] in *.
  - intros Hraise. by rewrite (Hf a st1 e Hraise).
  - done.
Qed.

Lemma undone_clear_event : undone_on_raise (T := T) (Data := Data) EDR.clear_event.
Proof.
  unfold EDR.clear_event.
  apply undone_bind; [apply quiet_gets|]. intros b.
  destruct b; cbn [negb]; [|by intros st e].
  apply undone_bind; [apply quiet_on_world|]. intros _.
  apply undone_bind; [apply quiet_gets|]. intros l.
  apply undone_bind; [apply quiet_sensors|]. intros _.
  by intros st e.
Qed.

(** X25: a save that fails leaves the event in place.  However
    [EDR.save_data] raises (the disk, a sensor without window, a missing
    event), the recorder's own fields are as before the call: it is still
    triggered, with the same timestamp, reason and sensors, so the save
    can be tried again and no new event is accepted meanwhile. *)
Theorem failed_save_keeps_event st (strftime : T -> string)
    (base_path : string) e :
  fst (EDR.save_data strftime base_path st) = Raise e ->
  EDR.edr (snd (EDR.save_data strftime base_path st)) = EDR.edr st.
Proof.
  revert st e.
  change (undone_on_raise (Data := Data) (EDR.save_data strftime base_path)).
  unfold EDR.save_data.
  apply undone_bind; [apply quiet_gets|]. intros [ts|]; [|by intros st e].
  do 7 (apply undone_bind;
        [first [apply quiet_on_world | apply quiet_gets | apply quiet_sensors]
        | intros ?]).
  apply undone_clear_event.
Qed.

End FailedSave.

Lemma failed_save_keeps_event_witness :
  let st := EDR.mkMachine (EDR.edr example_triggered)
              (EDR.store example_triggered)
              (mkWorld [] ["out/2022-03-01-12-00-00/images/rear"]) in
  EDR.edr (snd (EDR.save_data (fun _ => "2022-03-01-12-00-00") "out" st)) =
    EDR.edr st.
Proof.
  apply (failed_save_keeps_event
           (EDR.mkMachine (EDR.edr example_triggered)
              (EDR.store example_triggered)
              (mkWorld [] ["out/2022-03-01-12-00-00/images/rear"]))
           (fun _ => "2022-03-01-12-00-00") "out" OSError).
  reflexivity.
Defined.

(** What that failed save leaves: the first camera saved and unlocked, the
    second locked, the recorder triggered. *)
Example failed_save_example :
  let st := EDR.mkMachine (EDR.edr example_triggered)
              (EDR.store example_triggered)
              (mkWorld [] ["out/2022-03-01-12-00-00/images/rear"]) in
  let run := EDR.save_data (fun _ => "2022-03-01-12-00-00") "out" st in
  fst run = Raise OSError /\
  EDR.triggered (EDR.edr (snd run)) = true /\
  (EDRBuffer.saving ∘ EDRSensor.edr_buffer) <$> EDR.store (snd run) !! 0%nat =
    Some false /\
  (EDRBuffer.saving ∘ EDRSensor.edr_buffer) <$> EDR.store (snd run) !! 1%nat =
    Some true.
Proof. vm_compute. repeat split; reflexivity. Qed.

(** ** Trying a save again *)

Section Retry.
Context {T : Type} `{PyNum T} {Data : Type}.
Implicit Types (b : EDRBuffer.t T Data) (w : World Data).

(** X26: a save that failed can be repeated.  On a triggered buffer, after
    a [save_data] that raised, a second [save_data] on a disk that takes
    everything writes the folder and every sample of the window, exactly
    as a first save would have, and leaves the buffer not marked as
    saving: only a repeated save unlocks the buffer. *)
Theorem retry_after_failed_save b w w2 (base_path ext : string)
    (ev start stop : T) e :
  EDRBuffer.event_timestamp b = Some ev ->
  EDRBuffer.start_timestamp b = Some start ->
  EDRBuffer.end_timestamp b = Some stop ->
  fst (EDRBuffer.save_data base_path ext (b, w)) = Raise e ->
  denied w2 = [] ->
  let locked := fst (snd (EDRBuffer.save_data base_path ext (b, w))) in
  let folder :=
    os_path_join base_path [EDRBuffer.sensor_type b; EDRBuffer.sensor_id b] in
  EDRBuffer.saving locked = true /\
  EDRBuffer.save_data base_path ext (locked, w2) =
    (Ok tt,
     (EDRBuffer.set_saving false b,
      mkWorld
        (log w2 ++
         MakeDirs folder ::
         map (fun item =>
                SaveToDisk
                  (os_path_join folder
                     [EDRBuffer.item_filename (EDRBuffer.sensor_id b)
                        (fst item) (psub (fst item) ev) ext])
                  (snd item))
             (window_items b))
        [])).
Proof.
  intros Hev Hstart Hstop Hraise Hw2 locked folder. subst locked.
  rewrite save_data_buffer, Hraise. cbn [saving_after].
  split; [done|].
  rewrite (buffer_save_ok (EDRBuffer.set_saving true b) base_path ext w2
             ev start stop) by done.
  by destruct b.
Qed.

End Retry.

Lemma retry_after_failed_save_witness :
  let locked :=
    fst (snd (EDRBuffer.save_data "out" ".png"
                (example_history, example_full_disk))) in
  let folder := os_path_join "out" ["images"; "cam"] in
  EDRBuffer.saving locked = true /\
  EDRBuffer.save_data "out" ".png" (locked, mkWorld [] []) =
    (Ok tt,
     (EDRBuffer.set_saving false example_history,
      mkWorld
        ([] ++
         MakeDirs folder ::
         map (fun item =>
                SaveToDisk
                  (os_path_join folder
                     [EDRBuffer.item_filename "cam"
                        (fst item) (psub (fst item) 3%Q) ".png"])
                  (snd item))
             (window_items example_history))
        [])).
Proof.
  apply (retry_after_failed_save example_history example_full_disk
           (mkWorld [] []) "out" ".png" 3%Q (3 - 2)%Q (3 + 1)%Q OSError);
    reflexivity.
Defined.
